(** * zipline.algorithm: the TradingAlgorithm orchestration layer

    A shallow embedding of [src/zipline/algorithm.py].  Python objects are
    attribute dictionaries, methods are computations in a state-and-error
    monad over the algorithm instance and a log of the calls made to the
    collaborators the module imports (the data-source adapter, the
    environment factory, the stateful-transform wrapper, the simulation
    engine and the slippage model). *)

From stdpp Require Import gmap strings list fin_maps sorting.
From Stdlib Require Import ZArith.

Local Open Scope Z_scope.

(** ** Python values *)

(** The values that flow through the module.  Dictionaries are keyed by
    strings (attribute names, transform tags, keyword names, snapshot
    fields).  [VRef] stands for an object this module never looks into: a
    class, a callable, a logger, a portfolio. *)
#[warnings="-register-all"] Inductive value :=
| VNone
| VBool (b : bool)
| VInt (z : Z)
| VStr (s : string)
| VNaN
| VTimestamp (ns : Z)
| VTuple (items : list value)
| VList (items : list value)
| VDict (d : gmap string value)
| VRef (name : string).

(** An instance is its attribute dictionary. *)
Abbreviation object := (gmap string value) (only parsing).

(** A performance snapshot is a record keyed by field names. *)
Abbreviation perf := (gmap string value) (only parsing).

(** ** Exceptions and fallible results *)

Inductive exn :=
| AssertionError
| AttributeError (name : string)
| IndexError
| KeyError (key : string)
| TypeError
| ValueError
| Raised (what : string).

Inductive result (A : Type) :=
| Ok (a : A)
| Err (e : exn).
Arguments Ok {A} a.
Arguments Err {A} e.

Global Instance result_ret : MRet result := λ A a, Ok a.
Global Instance result_bind : MBind result := λ A B f r,
  match r with
  | Ok a => f a
  | Err e => Err e
  end.

Definition is_ok {A} (r : result A) : bool :=
  match r with Ok _ => true | Err _ => false end.

(** [v[key]] for a string key: only dictionaries answer. *)
Definition getitem (v : value) (key : string) : result value :=
  match v with
  | VDict d =>
      match d !! key with
      | Some x => Ok x
      | None => Err (KeyError key)
      end
  | _ => Err TypeError
  end.

(** [l[k]] for an integer subscript, negative subscripts counting from
    the end. *)
Definition subscript {A} (l : list A) (k : Z) : result A :=
  let n := Z.of_nat (length l) in
  let k' := if k <? 0 then k + n else k in
  if k' <? 0 then Err IndexError
  else match l !! Z.to_nat k' with
       | Some x => Ok x
       | None => Err IndexError
       end.

(** ** pandas frames *)

Inductive Index :=
| DatetimeIndex (stamps : list Z)
| Int64Index (labels : list Z)
| ObjectIndex (labels : list value).

Definition index_values (i : Index) : list value :=
  match i with
  | DatetimeIndex stamps => VTimestamp <$> stamps
  | Int64Index labels => VInt <$> labels
  | ObjectIndex labels => labels
  end.

(** [isinstance(index, pd.tseries.index.DatetimeIndex)] *)
Definition is_DatetimeIndex (i : Index) : bool :=
  match i with
  | DatetimeIndex _ => true
  | _ => false
  end.

Record DataFrame := {
  df_index : Index;
  df_columns : list value;
  df_values : list (list value)
}.

(** [df.index[k]] *)
Definition index_getitem (i : Index) (k : Z) : result value :=
  subscript (index_values i) k.

(** Column labels of a frame built from records: the union of their keys. *)
Definition record_columns (records : list (gmap string value)) : list string :=
  elements (⋃ (dom <$> records) : gset string).

(** The column such a frame is given under the label [c]: the value each
    record holds under [c], NaN for a record that lacks the key. *)
Definition record_column (records : list (gmap string value)) (c : string)
  : list value :=
  (λ record, default VNaN (record !! c)) <$> records.

(** The frame built from records and instants.  pandas settles a dtype
    for each column and stores the column converted to it; [coerce] is
    that conversion, of which nothing is assumed here.  Cells are read
    off the stored columns.  The labels of the columns come in some order
    that is not modelled: cells are looked up by label. *)
Definition frame_of_records (coerce : list value → list value)
    (records : list (gmap string value)) (index : list Z) : DataFrame :=
  {| df_index := DatetimeIndex index;
     df_columns := VStr <$> record_columns records;
     df_values :=
       (λ i, (λ c, default VNaN (coerce (record_column records c) !! i))
               <$> record_columns records)
       <$> seq 0 (length records) |}.

Definition as_record (v : value) : result (gmap string value) :=
  match v with
  | VDict d => Ok d
  | _ => Err TypeError
  end.

(** [pd.DataFrame(data, index=index)] for [data] a list of records and
    [index] a list of instants.  The lengths must agree.  The reducer
    below only ever passes records (see [daily_perfs_are_records]); the
    other forms pandas accepts are left out. *)
Definition pd_DataFrame (coerce : list value → list value)
    (data : list value) (index : list Z) : result DataFrame :=
  records ← mapM as_record data;
  if decide (length records = length index)
  then Ok (frame_of_records coerce records index)
  else Err ValueError.

Definition nrows (df : DataFrame) : nat := length (df_values df).

Definition is_label (c : string) (v : value) : bool :=
  match v with
  | VStr s => bool_decide (s = c)
  | _ => false
  end.

(** The cell in row [i] (by position) under column label [c]. *)
Definition df_cell (df : DataFrame) (i : nat) (c : string) : option value :=
  row ← df_values df !! i;
  j ← fst <$> list_find (λ v, is_label c v = true) (df_columns df);
  row !! j.

(** ** Sources *)

(** A streaming source.  [data] is the frame a source keeps, when it keeps
    one: [None] is a source object without a [data] attribute. *)
Record Source := {
  source_name : string;
  data : option DataFrame
}.

Definition source_data (s : Source) : result DataFrame :=
  match data s with
  | Some df => Ok df
  | None => Err (AttributeError "data")
  end.

(** What [run] is given: a pandas frame or a zipline source. *)
Inductive run_source :=
| Tabular (df : DataFrame)
| Native (src : Source).

(** ** Calls on the algorithm made from outside *)

(** The public methods other than [run]; the simulation engine reaches
    the algorithm it was handed through these. *)
Inductive method :=
| AddTransform (transform_class : value) (tag : string)
               (args : list value) (kwargs : gmap string value)
| SetPortfolio (portfolio : value)
| SetOrder (order_callable : value)
| GetSidFilter
| SetLogger (logger : value)
| SetSlippageOverride (slippage_callable : value).

(** ** Collaborators *)

(** The imports of the module, outside this file: each is taken as given.
    A constructor either returns its object or raises.  The simulation
    engine, which is handed the algorithm, may in addition call the
    algorithm's methods while it is constructed and while it is iterated. *)
Record Collaborators := {
  Environment : Type;
  Slippage : Type;
  Simulation : Type;
  (** [zipline.gens.tradegens.DataFrameSource(frame, sids=...)] *)
  DataFrameSource : DataFrame → value → result Source;
  (** [zipline.utils.factory.create_trading_environment(start=, end=)] *)
  create_trading_environment : value → value → result Environment;
  (** [zipline.gens.transform.StatefulTransform(cls, *args, **kwargs)] *)
  StatefulTransform :
    value → list value → gmap string value → result (gmap string value);
  (** [zipline.finance.slippage.FixedSlippage()] *)
  FixedSlippage : result Slippage;
  (** [zipline.lines.SimulatedTrading(sources, transforms, algo, env, slip)] *)
  SimulatedTrading :
    list Source → list (gmap string value) → gmap string value →
    Environment → Slippage → list method * result Simulation;
  (** iterating a simulation to exhaustion *)
  snapshots : Simulation → list method * result (list (gmap string value));
  (** [np.datetime64(v, utc=True)], as an instant in UTC *)
  datetime64 : value → result Z;
  (** what pandas makes of one column of a frame when it settles the
      column's dtype *)
  coerce_column : list value → list value;
  (** the order in which a dictionary hands out its items: some order,
      which the language does not fix *)
  dict_items : gmap string value → list (string * value);
  dict_items_perm : ∀ d, dict_items d ≡ₚ map_to_list d
}.

(** The [daily_perf] field of a snapshot, when it has one. *)
Abbreviation daily_of := (λ perf : gmap string value, perf !! "daily_perf").

Section Algorithm.
Context (ext : Collaborators).

(** ** The call log *)

(** One entry per call that leaves the module, in the order made, and one
    per call the engine makes back into the algorithm. *)
Inductive event :=
| CallDataFrameSource (df : DataFrame) (sids : value)
| CallCreateTradingEnvironment (start end_ : value)
| CallStatefulTransform (cls : value) (args : list value)
                        (kwargs : gmap string value)
| CallFixedSlippage
| CallSimulatedTrading (sources : list Source)
                       (transforms : list (gmap string value))
                       (algo : gmap string value)
                       (environment : Environment ext)
                       (slippage : Slippage ext)
| CallList (simulated_trading : Simulation ext)
| Callback (m : method).

(** ** The monad of methods *)

Record world := {
  self : gmap string value;
  trace : list event
}.

(** A method reads and writes the instance, may log calls, and may raise;
    what it did before raising stays done. *)
Definition M (A : Type) : Type := world → world * result A.

#[global] Instance M_ret : MRet M := λ A a w, (w, Ok a).
#[global] Instance M_bind : MBind M := λ A B f m w,
  match m w with
  | (w', Ok a) => f a w'
  | (w', Err e) => (w', Err e)
  end.

Definition raise {A} (e : exn) : M A := λ w, (w, Err e).

Definition lift {A} (r : result A) : M A := λ w, (w, r).

Definition getattr (name : string) : M value := λ w,
  (w, match self w !! name with
      | Some v => Ok v
      | None => Err (AttributeError name)
      end).

Definition setattr (name : string) (v : value) : M unit := λ w,
  ({| self := <[name := v]> (self w); trace := trace w |}, Ok ()).

Definition get_self : M (gmap string value) := λ w, (w, Ok (self w)).

Definition emit (e : event) : M unit := λ w,
  ({| self := self w; trace := trace w ++ [e] |}, Ok ()).

(** Calling a collaborator that cannot touch the algorithm. *)
Definition call {A} (e : event) (r : result A) : M A :=
  emit e;; lift r.

(** ** TradingAlgorithm *)

(** The hook a strategy overrides. *)
Definition hook : Type := list value → gmap string value → M value.

Definition initialize : hook := λ args kwargs, mret VNone.

Definition __init__ (initialize : hook) (sids : value)
    (args : list value) (kwargs : gmap string value) : M value :=
  setattr "sids" sids;;
  setattr "done" (VBool false);;
  setattr "order" VNone;;
  setattr "frame_count" (VInt 0);;
  setattr "portfolio" VNone;;
  setattr "registered_transforms" (VDict ∅);;
  initialize args kwargs;;
  mret VNone.

(** The descriptor [add_transform] stores. *)
Definition descriptor (transform_class : value) (args : list value)
    (kwargs : gmap string value) : value :=
  VDict (<["class" := transform_class]>
        (<["args" := VTuple args]>
        (<["kwargs" := VDict kwargs]> ∅))).

Definition add_transform (transform_class : value) (tag : string)
    (args : list value) (kwargs : gmap string value) : M value :=
  registered_transforms ← getattr "registered_transforms";
  match registered_transforms with
  | VDict d =>
      setattr "registered_transforms"
        (VDict (<[tag := descriptor transform_class args kwargs]> d));;
      mret VNone
  | _ => raise TypeError
  end.

Definition set_portfolio (portfolio : value) : M value :=
  setattr "portfolio" portfolio;; mret VNone.

Definition set_order (order_callable : value) : M value :=
  setattr "order" order_callable;; mret VNone.

Definition get_sid_filter : M value := getattr "sids".

Definition set_logger (logger : value) : M value :=
  setattr "logger" logger;; mret VNone.

Definition set_slippage_override (slippage_callable : value) : M value :=
  mret VNone.

Definition invoke (m : method) : M value :=
  match m with
  | AddTransform transform_class tag args kwargs =>
      add_transform transform_class tag args kwargs
  | SetPortfolio portfolio => set_portfolio portfolio
  | SetOrder order_callable => set_order order_callable
  | GetSidFilter => get_sid_filter
  | SetLogger logger => set_logger logger
  | SetSlippageOverride c => set_slippage_override c
  end.

(** The engine calling back: each call is logged and carried out; a call
    that raises ends the engine's work with that exception. *)
Definition callbacks (ms : list method) : M unit :=
  mapM (λ m, emit (Callback m);; invoke m) ms;; mret ().

(** Calling the engine: log the call, carry out the calls it makes on the
    algorithm, then return what it returns. *)
Definition engine {A} (e : event) (r : list method * result A) : M A :=
  emit e;; callbacks r.1;; lift r.2.

(** [d.iteritems()] *)
Definition iteritems (v : value) : result (list (string * value)) :=
  match v with
  | VDict d => Ok (dict_items ext d)
  | _ => Err (AttributeError "iteritems")
  end.

(** [*v] in a call: any iterable is unpacked, a string into its
    characters and a dictionary into its keys; an object this module
    cannot look into is taken not to be one. *)
Definition star (v : value) : result (list value) :=
  match v with
  | VTuple items | VList items => Ok items
  | VStr s => Ok ((λ c, VStr (String c EmptyString)) <$> String.list_ascii_of_string s)
  | VDict d => Ok ((λ item, VStr item.1) <$> dict_items ext d)
  | _ => Err TypeError
  end.

(** [**v] in a call *)
Definition starstar (v : value) : result (gmap string value) :=
  match v with
  | VDict d => Ok d
  | _ => Err TypeError
  end.

(** The body of the loop of [_create_simulator]: wrap one registered
    descriptor into a StatefulTransform and name it after its tag. *)
Definition materialize (item : string * value) : M (gmap string value) :=
  let '(namestring, trans_descr) := item in
  cls ← lift (getitem trans_descr "class");
  args ← lift (getitem trans_descr "args" ≫= star);
  kwargs ← lift (getitem trans_descr "kwargs" ≫= starstar);
  sf ← call (CallStatefulTransform cls args kwargs)
            (StatefulTransform ext cls args kwargs);
  mret (<["namestring" := VStr namestring]> sf).

Definition _create_simulator (source : Source) : M (Simulation ext) :=
  frame ← lift (source_data source);
  start ← lift (index_getitem (df_index frame) 0);
  end_ ← lift (index_getitem (df_index frame) (-1));
  environment ← call (CallCreateTradingEnvironment start end_)
                     (create_trading_environment ext start end_);
  registered_transforms ← getattr "registered_transforms";
  items ← lift (iteritems registered_transforms);
  transforms ← mapM materialize items;
  slippage ← call CallFixedSlippage (FixedSlippage ext);
  algo ← get_self;
  engine (CallSimulatedTrading [source] transforms algo environment slippage)
         (SimulatedTrading ext [source] transforms algo environment slippage).

(** The loop of [_create_daily_stats]: daily records in one list,
    everything else in the other, each in encounter order. *)
Definition split_perfs (perfs : list (gmap string value))
  : list value * list (gmap string value) :=
  foldl (λ '(daily_perfs, cum_perfs) perf,
           match perf !! "daily_perf" with
           | Some daily => (daily_perfs ++ [daily], cum_perfs)
           | None => (daily_perfs, cum_perfs ++ [perf])
           end) ([], []) perfs.

Definition _create_daily_stats (perfs : list (gmap string value))
  : result DataFrame :=
  let '(daily_perfs, cum_perfs) := split_perfs perfs in
  daily_dts ← mapM (λ perf, getitem perf "period_close" ≫= datetime64 ext)
                   daily_perfs;
  pd_DataFrame (coerce_column ext) daily_perfs daily_dts.

(** The first statement of [run]: a frame is checked and wrapped into a
    DataFrameSource, a source is taken as it is. *)
Definition adapt (source : run_source) : M Source :=
  match source with
  | Tabular df =>
      (if is_DatetimeIndex (df_index df) then mret ()
       else raise AssertionError);;
      sids ← getattr "sids";
      call (CallDataFrameSource df sids) (DataFrameSource ext df sids)
  | Native src => mret src
  end.

Definition run (source : run_source) : M DataFrame :=
  source ← adapt source;
  simulated_trading ← _create_simulator source;
  perfs ← engine (CallList simulated_trading) (snapshots ext simulated_trading);
  daily_stats ← lift (_create_daily_stats perfs);
  mret daily_stats.


(** [TradingAlgorithm(sids, *args, **kwargs)]: a fresh instance, then
    [__init__] on it. *)
Definition TradingAlgorithm (initialize : hook) (sids : value)
    (args : list value) (kwargs : gmap string value) : world * result value :=
  __init__ initialize sids args kwargs {| self := ∅; trace := [] |}.

(** ** Sequences of public operations *)

Inductive operation :=
| Method (m : method)
| Run (source : run_source).

Definition perform (op : operation) : M unit :=
  match op with
  | Method m => invoke m;; mret ()
  | Run source => run source;; mret ()
  end.

(** The caller goes on after an operation that raised. *)
Definition perform_all (ops : list operation) (w : world) : world :=
  foldl (λ w op, (perform op w).1) w ops.

(** The attribute a method assigns, if it assigns one. *)
Definition assigns (m : method) : option string :=
  match m with
  | AddTransform _ _ _ _ => Some "registered_transforms"
  | SetPortfolio _ => Some "portfolio"
  | SetOrder _ => Some "order"
  | GetSidFilter => None
  | SetLogger _ => Some "logger"
  | SetSlippageOverride _ => None
  end.

Definition is_set_logger (op : operation) : bool :=
  match op with
  | Method (SetLogger _) => true
  | _ => false
  end.

Definition is_logger_callback (e : event) : bool :=
  match e with
  | Callback (SetLogger _) => true
  | _ => false
  end.

(** A computation keeps an invariant of the world. *)
Definition keeps (I : world → Prop) {A} (m : M A) : Prop :=
  ∀ w, I w → I (m w).1.

(** ** Reading the call log *)

(** What a computation added to the log. *)
Definition events_of {A} (m : M A) (w : world) : list event :=
  drop (length (trace w)) (trace (m w).1).

Definition is_construction (e : event) : bool :=
  match e with
  | CallSimulatedTrading _ _ _ _ _ => true
  | _ => false
  end.

Definition is_drive (e : event) : bool :=
  match e with
  | CallList _ => true
  | _ => false
  end.

Definition constructions (es : list event) : list event :=
  filter (λ e, is_construction e = true) es.

(** A computation adds to the log at most [n] constructions of a
    simulation, whether it returns or raises. *)
Definition constructs_at_most (n : nat) {A} (m : M A) : Prop :=
  ∀ w, ∃ evs, trace (m w).1 = trace w ++ evs
              ∧ (length (constructions evs) ≤ n)%nat.

(** The registry of the instance is a dictionary. *)
Definition has_registry (w : world) : Prop :=
  ∃ reg : gmap string value,
    self w !! "registered_transforms" = Some (VDict reg).

(** A transform instance named [tag]. *)
Definition has_namestring (tag : string) (sf : gmap string value) : bool :=
  match sf !! "namestring" with
  | Some (VStr s) => bool_decide (s = tag)
  | _ => false
  end.

(** [sf] is the StatefulTransform built from the registry entry [item]:
    constructed from the class and the arguments the entry holds, and
    named after the entry's tag. *)
Definition wraps (item : string * value) (sf : gmap string value) : Prop :=
  ∃ cls args kwargs instance,
    getitem item.2 "class" = Ok cls ∧
    getitem item.2 "args" ≫= star = Ok args ∧
    getitem item.2 "kwargs" ≫= starstar = Ok kwargs ∧
    StatefulTransform ext cls args kwargs = Ok instance ∧
    sf = <["namestring" := VStr item.1]> instance.

(** The same, spelled out on the entry itself: the entry is a dictionary,
    the instance was constructed from what it holds under [class], from
    the items of the tuple or list it holds under [args] and from the
    dictionary it holds under [kwargs], and carries the tag as its
    [namestring]. *)
Definition built_from (item : string * value) (sf : gmap string value)
  : Prop :=
  ∃ (entry : gmap string value) cls packed args kwargs instance,
    item.2 = VDict entry ∧
    entry !! "class" = Some cls ∧
    entry !! "args" = Some packed ∧
    (∀ items, packed = VTuple items ∨ packed = VList items → args = items) ∧
    entry !! "kwargs" = Some (VDict kwargs) ∧
    StatefulTransform ext cls args kwargs = Ok instance ∧
    sf = <["namestring" := VStr item.1]> instance.

Definition is_callback (e : event) : bool :=
  match e with
  | Callback _ => true
  | _ => false
  end.

Definition is_transform_call (e : event) : bool :=
  match e with
  | CallStatefulTransform _ _ _ => true
  | _ => false
  end.

(** As long as the engine has not called [set_logger], there is no
    [logger] attribute. *)
Definition logger_unset (w : world) : Prop :=
  existsb is_logger_callback (trace w) = false → self w !! "logger" = None.

(** ** Reading snapshots *)

(** ['daily_perf' in perf] *)
Definition is_daily (perf : gmap string value) : bool :=
  match perf !! "daily_perf" with
  | Some _ => true
  | None => false
  end.

Definition daily_bucket (perfs : list (gmap string value))
  : list (gmap string value) :=
  filter (λ perf, is_daily perf = true) perfs.

(** The instant the reducer reads off a daily record. *)
Definition close_of_daily (daily : value) : result Z :=
  getitem daily "period_close" ≫= datetime64 ext.

(** The instant a snapshot closes at, for a snapshot that has one. *)
Definition close_of (perf : gmap string value) : option Z :=
  match perf !! "daily_perf" with
  | Some daily =>
      match close_of_daily daily with
      | Ok t => Some t
      | Err _ => None
      end
  | None => None
  end.

Definition not_after (p q : gmap string value) : bool :=
  match close_of p, close_of q with
  | Some a, Some b => a <=? b
  | _, _ => true
  end.

(** Emission order is chronological: no snapshot closes after one emitted
    later. *)
Fixpoint chronological (perfs : list (gmap string value)) : bool :=
  match perfs with
  | [] => true
  | p :: rest => forallb (not_after p) rest && chronological rest
  end.

(** Every daily record carries a [period_close] that converts. *)
Definition closes_readable (perfs : list (gmap string value)) : bool :=
  forallb (λ perf, match perf !! "daily_perf" with
                   | Some daily => is_ok (close_of_daily daily)
                   | None => true
                   end) perfs.

(** ** Reading the instance against the log *)

(** The engine called back a method that assigns [name]. *)
Definition assigns_callback (name : string) (e : event) : bool :=
  match e with
  | Callback m => bool_decide (assigns m = Some name)
  | _ => false
  end.

(** Since the log read [t0], the attribute [name] reads [o] unless the
    engine has called back a method that assigns it. *)
Definition untouched_since (t0 : list event) (name : string)
    (o : option value) (w : world) : Prop :=
  ∃ evs, trace w = t0 ++ evs
         ∧ (existsb (assigns_callback name) evs = false →
            self w !! name = o).

(** The calls assembly makes before it constructs the simulation. *)
Definition is_assembly_call (e : event) : bool :=
  match e with
  | CallCreateTradingEnvironment _ _
  | CallStatefulTransform _ _ _
  | CallFixedSlippage => true
  | _ => false
  end.

Definition is_adapter_call (e : event) : bool :=
  match e with
  | CallDataFrameSource _ _ => true
  | _ => false
  end.

(** Every entry of the registry is a descriptor as [add_transform]
    stores it. *)
Definition is_descriptor (d : value) : Prop :=
  ∃ cls args kwargs, d = descriptor cls args kwargs.

Definition registry_well_formed (w : world) : Prop :=
  ∃ reg : gmap string value,
    self w !! "registered_transforms" = Some (VDict reg)
    ∧ map_Forall (λ _ d, is_descriptor d) reg.

End Algorithm.

(** ** Time-ordered indexes *)

Fixpoint strictly_increasing (stamps : list Z) : bool :=
  match stamps with
  | [] => true
  | a :: rest =>
      match rest with
      | [] => true
      | b :: _ => (a <? b) && strictly_increasing rest
      end
  end.

(** The row index is a strictly increasing sequence of timestamps. *)
Definition time_ordered (i : Index) : bool :=
  match i with
  | DatetimeIndex stamps => strictly_increasing stamps
  | _ => false
  end.

(** ** An engine to run examples on *)

(** The adapter keeps the frame; the environment is the span; a transform
    instance remembers what it was built from; the engine hands the
    algorithm an order callable when constructed and a portfolio when
    iterated, and emits one daily snapshot per timestamp of its source,
    then a cumulative summary. *)
Definition replay_daily (stamp : value) : gmap string value :=
  <["daily_perf" := VDict (<["period_close" := stamp]>
                          (<["returns" := VInt 0]> ∅))]>
  (<["progress" := VInt 1]> ∅).

Definition replay_summary : gmap string value :=
  <["cumulative_perf" := VDict (<["returns" := VInt 0]> ∅)]> ∅.

(** A column with a number in it holds numbers: [None] is stored as NaN. *)
Definition numeric_column (column : list value) : list value :=
  if existsb (λ v, match v with VInt _ => true | _ => false end) column
  then (λ v, match v with VNone => VNaN | _ => v end) <$> column
  else column.

Definition replay : Collaborators := {|
  Environment := value * value;
  Slippage := unit;
  Simulation := list Source;
  DataFrameSource := λ df sids,
    Ok {| source_name := "DataFrameSource"; data := Some df |};
  create_trading_environment := λ start end_, Ok (start, end_);
  StatefulTransform := λ cls args kwargs,
    Ok (<["state" := VTuple (cls :: args)]> kwargs);
  FixedSlippage := Ok ();
  SimulatedTrading := λ sources transforms algo environment slippage,
    ([SetOrder (VRef "order")], Ok sources);
  snapshots := λ sources,
    ([SetPortfolio (VRef "portfolio")],
     Ok ((replay_daily <$>
           (sources ≫= λ s, from_option (λ df, index_values (df_index df))
                                         [] (data s)))
         ++ [replay_summary]));
  datetime64 := λ v,
    match v with
    | VTimestamp ns => Ok ns
    | _ => Err TypeError
    end;
  coerce_column := numeric_column;
  dict_items := map_to_list;
  dict_items_perm := λ d, Permutation_refl (map_to_list d)
|}.

Definition prices (stamps : list Z) : DataFrame :=
  {| df_index := DatetimeIndex stamps;
     df_columns := [VInt 1; VInt 2];
     df_values := (λ _, [VInt 10; VInt 20]) <$> stamps |}.

Definition fresh (sids : value) : world replay :=
  (TradingAlgorithm replay (initialize replay) sids [] ∅).1.

Definition sids12 : value := VList [VInt 1; VInt 2].

(** A frame indexed by integers, not by timestamps. *)
Definition labelled : DataFrame :=
  {| df_index := Int64Index [0; 1; 2];
     df_columns := [VInt 1; VInt 2];
     df_values := [[VInt 10; VInt 20]; [VInt 11; VInt 21]; [VInt 12; VInt 22]] |}.

(** A source of the engine's own, keeping a two-day frame. *)
Definition walk : Source :=
  {| source_name := "RandomWalkSource"; data := Some (prices [1; 2]) |}.

(** An instance with one transform registered. *)
Definition tracking : world replay :=
  (add_transform replay (VRef "mavg") "signal" [VInt 5]
     (<["window" := VInt 3]> ∅) (fresh sids12)).1.

(** What the engine emits over two days. *)
Definition emitted : list (gmap string value) :=
  [replay_daily (VTimestamp 1); replay_daily (VTimestamp 2); replay_summary].


Definition top_close_only : gmap string value :=
  <["daily_perf" := VDict (<["returns" := VInt 0]> ∅)]>
  (<["period_close" := VTimestamp 5]> ∅).

(** Two daily snapshots, the second with no return to show. *)
Definition gappy : list (gmap string value) :=
  [replay_daily (VTimestamp 1);
   <["daily_perf" := VDict (<["period_close" := VTimestamp 2]>
                           (<["returns" := VNone]> ∅))]> ∅].

(** A session of public operations in which nobody sets a logger. *)
Definition session : list operation :=
  [Method (AddTransform (VRef "mavg") "signal" [VInt 5] ∅);
   Run (Tabular (prices [1; 2]));
   Method (SetOrder (VRef "broker"));
   Method GetSidFilter;
   Method (SetSlippageOverride (VRef "impact"))].


(** A stricter engine: the environment factory wants a span that does not
    run backwards, the transform wrapper wants a class it knows, and the
    feed breaks off when the algorithm tracks nothing. *)
Definition strict : Collaborators := {|
  Environment := value * value;
  Slippage := unit;
  Simulation := list Source * bool;
  DataFrameSource := λ df sids,
    match df_columns df with
    | [] => Err (Raised "no columns")
    | _ => Ok {| source_name := "DataFrameSource"; data := Some df |}
    end;
  create_trading_environment := λ start end_,
    match start, end_ with
    | VTimestamp a, VTimestamp b =>
        if b <? a then Err ValueError else Ok (start, end_)
    | _, _ => Err TypeError
    end;
  StatefulTransform := λ cls args kwargs,
    match cls with
    | VRef _ => Ok (<["state" := VTuple (cls :: args)]> kwargs)
    | _ => Err TypeError
    end;
  FixedSlippage := Ok ();
  SimulatedTrading := λ sources transforms algo environment slippage,
    ([SetOrder (VRef "order"); SetLogger (VRef "log")],
     Ok (sources, match algo !! "sids" with
                  | Some (VList (_ :: _)) => true
                  | _ => false
                  end));
  snapshots := λ '(sources, tracking),
    ([SetPortfolio (VRef "portfolio")],
     if tracking
     then Ok ((replay_daily <$>
                (sources ≫= λ s, from_option
                                   (λ df, index_values (df_index df))
                                   [] (data s)))
              ++ [replay_summary])
     else Err (Raised "feed"));
  datetime64 := λ v,
    match v with
    | VTimestamp ns => Ok ns
    | _ => Err TypeError
    end;
  coerce_column := λ column, column;
  dict_items := map_to_list;
  dict_items_perm := λ d, Permutation_refl (map_to_list d)
|}.

Definition strict_fresh (sids : value) : world strict :=
  (TradingAlgorithm strict (initialize strict) sids [] ∅).1.

(** A source object that keeps no frame. *)
Definition bare : Source := {| source_name := "bare"; data := None |}.

(** A source whose frame runs backwards. *)
Definition backwards : Source :=
  {| source_name := "backwards"; data := Some (prices [2; 1]) |}.

(** A frame with a timestamp index and no column. *)
Definition no_columns : DataFrame :=
  {| df_index := DatetimeIndex [1]; df_columns := []; df_values := [[]] |}.

(** An instance with a transform registered under a class the strict
    wrapper does not know. *)
Definition misregistered : world strict :=
  (add_transform strict (VInt 3) "signal" [] ∅ (strict_fresh sids12)).1.

(** * Properties *)

(** ** Fallible results *)

Lemma mapM_result_ok {A B} (f : A → result B) (l : list A) (k : list B) :
  mapM f l = Ok k ↔ Forall2 (λ x y, f x = Ok y) l k.
Proof.
  revert k. induction l as [|x l IH]; intros k; simpl.
  - split.
    + intros [= <-]. constructor.
    + intros H. inversion H. reflexivity.
  - split.
    + unfold mbind, result_bind at 1.
      destruct (f x) as [y|e] eqn:Hx; [|discriminate].
      unfold mbind, result_bind at 1.
      destruct (mapM f l) as [k'|e] eqn:Hl; [|discriminate].
      intros [= <-]. constructor; [assumption|]. by apply IH.
    + intros H. inversion H as [|? y ? k' Hx Hl]; subst.
      apply IH in Hl. unfold mbind, result_bind at 1. rewrite Hx.
      unfold mbind, result_bind at 1. by rewrite Hl.
Qed.

Lemma mapM_result_length {A B} (f : A → result B) l k :
  mapM f l = Ok k → length l = length k.
Proof. intros H. apply mapM_result_ok in H. by eapply Forall2_length. Qed.

Lemma subscript_nil {A} (k : Z) : subscript (@nil A) k = Err IndexError.
Proof. unfold subscript. simpl. by repeat case_match. Qed.

(** ** Frames built from records *)

Lemma record_columns_nil : record_columns [] = [].
Proof. unfold record_columns. simpl. apply elements_empty. Qed.



Lemma nrows_frame_of_records coerce records index :
  nrows (frame_of_records coerce records index) = length records.
Proof. unfold nrows. simpl. by rewrite length_fmap, length_seq. Qed.

Lemma frame_of_records_nil coerce :
  frame_of_records coerce [] []
  = {| df_index := DatetimeIndex []; df_columns := []; df_values := [] |}.
Proof. unfold frame_of_records. by rewrite record_columns_nil. Qed.



(** ** Iterating a dictionary *)

Lemma elem_of_dict_items (ext : Collaborators) (d : gmap string value) k v :
  (k, v) ∈ dict_items ext d ↔ d !! k = Some v.
Proof. rewrite (dict_items_perm ext d). apply elem_of_map_to_list. Qed.

Lemma NoDup_fst_dict_items (ext : Collaborators) (d : gmap string value) :
  NoDup (dict_items ext d).*1.
Proof. rewrite (dict_items_perm ext d). apply NoDup_fst_map_to_list. Qed.

Lemma length_dict_items (ext : Collaborators) (d : gmap string value) :
  length (dict_items ext d) = size d.
Proof. rewrite (dict_items_perm ext d). apply length_map_to_list. Qed.

(** ** The performance reducer *)

Section Reducer.
Context (ext : Collaborators).

(** The loop fills its two lists in encounter order and loses nothing. *)
Lemma split_perfs_spec perfs :
  split_perfs perfs
  = (omap daily_of perfs, filter (λ perf, is_daily perf = false) perfs).
Proof.
  unfold split_perfs.
  enough (∀ daily cum,
    foldl (λ '(daily_perfs, cum_perfs) perf,
             match perf !! "daily_perf" with
             | Some d => (daily_perfs ++ [d], cum_perfs)
             | None => (daily_perfs, cum_perfs ++ [perf])
             end) (daily, cum) perfs
    = (daily ++ omap daily_of perfs,
       cum ++ filter (λ perf, is_daily perf = false) perfs)) as H
    by apply (H [] []).
  induction perfs as [|p perfs IH]; intros daily cum; simpl.
  - by rewrite !app_nil_r.
  - rewrite filter_cons.
    destruct (p !! "daily_perf") as [d|] eqn:Hp; rewrite IH.
    + rewrite decide_False by (unfold is_daily; by rewrite Hp).
      by rewrite <- app_assoc.
    + rewrite decide_True by (unfold is_daily; by rewrite Hp).
      by rewrite <- app_assoc.
Qed.

Lemma create_daily_stats_unfold perfs :
  _create_daily_stats ext perfs
  = mapM (close_of_daily ext) (omap daily_of perfs)
    ≫= pd_DataFrame (coerce_column ext) (omap daily_of perfs).
Proof. unfold _create_daily_stats. by rewrite split_perfs_spec. Qed.

(** The daily records line up with the daily bucket. *)
Lemma daily_bucket_records perfs :
  Forall2 (λ perf daily, perf !! "daily_perf" = Some daily)
          (daily_bucket perfs) (omap daily_of perfs).
Proof.
  unfold daily_bucket. induction perfs as [|p perfs IH]; simpl.
  - constructor.
  - rewrite filter_cons.
    destruct (p !! "daily_perf") as [d|] eqn:Hp.
    + rewrite decide_True by (unfold is_daily; by rewrite Hp).
      by constructor.
    + by rewrite decide_False by (unfold is_daily; by rewrite Hp).
Qed.

Lemma daily_bucket_length perfs :
  length (omap daily_of perfs) = length (daily_bucket perfs).
Proof. symmetry. eapply Forall2_length, daily_bucket_records. Qed.

(** A value whose [period_close] could be read is a record. *)
Lemma close_of_daily_record daily t :
  close_of_daily ext daily = Ok t →
  ∃ (record : gmap string value) v,
    daily = VDict record ∧ record !! "period_close" = Some v
    ∧ datetime64 ext v = Ok t.
Proof.
  unfold close_of_daily. destruct daily; try discriminate. simpl.
  destruct (d !! "period_close") as [v|] eqn:Hv; [|discriminate].
  intros H. by exists d, v.
Qed.

(** So the frame constructor is only ever handed records. *)
Lemma daily_perfs_are_records (dailies : list value) stamps :
  mapM (close_of_daily ext) dailies = Ok stamps →
  ∃ records : list (gmap string value), dailies = VDict <$> records.
Proof.
  intros H. apply mapM_result_ok in H.
  induction H as [|d t ds ts Hd _ [records ->]].
  - by exists [].
  - apply close_of_daily_record in Hd as (r & _ & -> & _).
    by exists (r :: records).
Qed.

Lemma pd_DataFrame_records coerce
    (records : list (gmap string value)) index :
  length records = length index →
  pd_DataFrame coerce (VDict <$> records) index
  = Ok (frame_of_records coerce records index).
Proof.
  intros Hlen. unfold pd_DataFrame.
  assert (mapM as_record (VDict <$> records) = Ok records) as ->.
  { apply mapM_result_ok. apply Forall2_fmap_l, Forall_Forall2_diag.
    by apply Forall_forall. }
  simpl. by rewrite decide_True.
Qed.

(** What a report that was returned looks like. *)
Lemma create_daily_stats_ok perfs report :
  _create_daily_stats ext perfs = Ok report →
  ∃ (records : list (gmap string value)) stamps,
    omap daily_of perfs = VDict <$> records
    ∧ Forall2 (λ daily t, close_of_daily ext daily = Ok t)
              (omap daily_of perfs) stamps
    ∧ pd_DataFrame (coerce_column ext) (VDict <$> records) stamps = Ok report
    ∧ report = frame_of_records (coerce_column ext) records stamps.
Proof.
  rewrite create_daily_stats_unfold.
  destruct (mapM (close_of_daily ext) (omap daily_of perfs))
    as [stamps|e] eqn:Hm; [|discriminate].
  simpl. intros Hdf.
  destruct (daily_perfs_are_records _ _ Hm) as [records Hrec].
  exists records, stamps. rewrite Hrec in Hdf |- *.
  split; [done|]. split; [by rewrite <- Hrec; apply mapM_result_ok|].
  split; [done|].
  rewrite pd_DataFrame_records in Hdf; [congruence|].
  apply mapM_result_length in Hm. rewrite Hrec in Hm.
  by rewrite length_fmap in Hm.
Qed.

Lemma closes_readable_mapM perfs :
  closes_readable ext perfs = true →
  ∃ stamps, mapM (close_of_daily ext) (omap daily_of perfs) = Ok stamps.
Proof.
  unfold closes_readable. induction perfs as [|p perfs IH]; simpl.
  - by exists [].
  - intros [Hp Hrest]%andb_prop. destruct (IH Hrest) as [stamps Hs].
    destruct (p !! "daily_perf") as [d|]; [|by exists stamps].
    destruct (close_of_daily ext d) as [t|] eqn:Hd; [|discriminate].
    exists (t :: stamps). apply mapM_result_ok.
    constructor; [done|]. by apply mapM_result_ok.
Qed.

End Reducer.

Section ReducerClaims.
Context (ext : Collaborators).

Lemma no_daily_records perfs :
  existsb is_daily perfs = false → omap daily_of perfs = [].
Proof.
  induction perfs as [|p perfs IH]; [done|]. simpl.
  intros [Hp Hrest]%orb_false_elim. unfold is_daily in Hp.
  destruct (p !! "daily_perf"); [discriminate|]. by apply IH.
Qed.

(** C9: when no snapshot carries a [daily_perf] field the reducer raises
    nothing and returns the empty report: no index entry, no column, no
    row. *)
Theorem create_daily_stats_empty_bucket perfs :
  existsb is_daily perfs = false →
  _create_daily_stats ext perfs
  = Ok {| df_index := DatetimeIndex []; df_columns := []; df_values := [] |}
  ∧ ∀ report, _create_daily_stats ext perfs = Ok report → nrows report = 0%nat.
Proof.
  intros H. rewrite create_daily_stats_unfold, (no_daily_records _ H). simpl.
  unfold pd_DataFrame. simpl. rewrite frame_of_records_nil.
  split; [done|]. by intros report [= <-].
Qed.

(** Every instant of the index is the close of a snapshot of the list. *)
Lemma stamps_are_closes perfs stamps :
  Forall2 (λ daily t, close_of_daily ext daily = Ok t)
          (omap daily_of perfs) stamps →
  Forall (λ t, ∃ q, q ∈ perfs ∧ close_of ext q = Some t) stamps.
Proof.
  revert stamps. induction perfs as [|p perfs IH]; intros stamps; simpl.
  - intros H. inversion H. constructor.
  - destruct (p !! "daily_perf") as [d|] eqn:Hp.
    + intros H. inversion H as [|? t ? ts Hd Hrest]; subst.
      constructor.
      * exists p. split; [by left|]. unfold close_of. by rewrite Hp, Hd.
      * eapply Forall_impl; [by apply IH|].
        intros t' (q & Hq & Hc). exists q. split; [by right|done].
    + intros H. eapply Forall_impl; [by apply IH|].
      intros t' (q & Hq & Hc). exists q. split; [by right|done].
Qed.

Lemma chronological_sorted perfs stamps :
  chronological ext perfs = true →
  Forall2 (λ daily t, close_of_daily ext daily = Ok t)
          (omap daily_of perfs) stamps →
  StronglySorted Z.le stamps.
Proof.
  revert stamps. induction perfs as [|p perfs IH]; intros stamps; simpl.
  - intros _ H. inversion H. constructor.
  - intros [Hp Hrest]%andb_prop.
    destruct (p !! "daily_perf") as [d|] eqn:Hd; [|by apply IH].
    intros H. inversion H as [|? t ? ts Ht Hts]; subst.
    constructor; [by apply IH|].
    apply stamps_are_closes in Hts.
    eapply Forall_impl; [exact Hts|].
    intros t' (q & Hq & Hc). simpl in Hc.
    rewrite forallb_forall in Hp.
    specialize (Hp q). rewrite <- list_elem_of_In in Hp.
    specialize (Hp Hq). unfold not_after in Hp.
    rewrite Hc in Hp. unfold close_of in Hp. rewrite Hd, Ht in Hp.
    by apply Z.leb_le.
Qed.

(** C3: when the snapshots were emitted in chronological order, the report
    the reducer returns has one row and one index entry per snapshot
    carrying a [daily_perf] field, and its index never decreases. *)
Theorem create_daily_stats_rows_and_order perfs report :
  chronological ext perfs = true →
  _create_daily_stats ext perfs = Ok report →
  nrows report = length (daily_bucket perfs)
  ∧ ∃ stamps, df_index report = DatetimeIndex stamps
      ∧ length stamps = length (daily_bucket perfs)
      ∧ StronglySorted Z.le stamps.
Proof.
  intros Hchr Hok.
  destruct (create_daily_stats_ok _ _ _ Hok)
    as (records & stamps & Hrec & Hst & _ & ->).
  rewrite nrows_frame_of_records.
  assert (length records = length (daily_bucket perfs)) as Hlen.
  { rewrite <- daily_bucket_length, Hrec. by rewrite length_fmap. }
  split; [done|]. exists stamps. split; [done|]. split.
  - apply Forall2_length in Hst. by rewrite <- Hst, daily_bucket_length.
  - by eapply chronological_sorted.
Qed.


End ReducerClaims.

(** ** Invariants of the instance *)

Section Frame.
Context (ext : Collaborators).
Implicit Types w : world ext.

Lemma bind_unfold {A B} (m : M ext A) (k : A → M ext B) w :
  (m ≫= k) w = match m w with
               | (w', Ok a) => k a w'
               | (w', Err e) => (w', Err e)
               end.
Proof. reflexivity. Qed.

Section Keeps.
Context (I : world ext → Prop).

Lemma keeps_ret {A} (a : A) : keeps ext I (mret a).
Proof. by intros w Hw. Qed.

Lemma keeps_raise {A} e : keeps ext I (raise ext (A:=A) e).
Proof. by intros w Hw. Qed.

Lemma keeps_lift {A} (r : result A) : keeps ext I (lift ext r).
Proof. by intros w Hw. Qed.

Lemma keeps_getattr name : keeps ext I (getattr ext name).
Proof. by intros w Hw. Qed.

Lemma keeps_get_self : keeps ext I (get_self ext).
Proof. by intros w Hw. Qed.

Lemma keeps_bind {A B} (m : M ext A) (k : A → M ext B) :
  keeps ext I m → (∀ a, keeps ext I (k a)) → keeps ext I (m ≫= k).
Proof.
  intros Hm Hk w Hw. rewrite bind_unfold.
  specialize (Hm w Hw). destruct (m w) as [w' [a|e]]; [|done].
  by apply Hk.
Qed.

Lemma keeps_mapM {A B} (f : A → M ext B) (l : list A) :
  (∀ x, keeps ext I (f x)) → keeps ext I (mapM f l).
Proof.
  intros Hf. induction l as [|x l IH]; simpl.
  - apply keeps_ret.
  - apply keeps_bind; [done|]. intros y.
    apply keeps_bind; [done|]. intros k. apply keeps_ret.
Qed.

(** An invariant that logging keeps, and that assignments to attributes
    other than [attr] keep. *)
Context (attr : string).
Context (I_emit : ∀ e, keeps ext I (emit ext e)).
Context (I_setattr : ∀ name v, name ≠ attr → keeps ext I (setattr ext name v)).

Lemma keeps_call {A} e (r : result A) : keeps ext I (call ext e r).
Proof. apply keeps_bind; [done|]. intros _. apply keeps_lift. Qed.

Lemma keeps_invoke m : assigns m ≠ Some attr → keeps ext I (invoke ext m).
Proof.
  destruct m; simpl; intros Hne.
  - apply keeps_bind; [apply keeps_getattr|]. intros reg.
    destruct reg; try apply keeps_raise.
    apply keeps_bind; [|intros; apply keeps_ret].
    apply I_setattr. congruence.
  - apply keeps_bind; [|intros; apply keeps_ret]. apply I_setattr. congruence.
  - apply keeps_bind; [|intros; apply keeps_ret]. apply I_setattr. congruence.
  - apply keeps_getattr.
  - apply keeps_bind; [|intros; apply keeps_ret]. apply I_setattr. congruence.
  - apply keeps_ret.
Qed.

(** ... and that every call made by the engine keeps. *)
Context (I_callback : ∀ m, keeps ext I (emit ext (Callback ext m);; invoke ext m)).

Lemma keeps_engine {A} e (r : list method * result A) :
  keeps ext I (engine ext e r).
Proof.
  apply keeps_bind; [done|]. intros _.
  apply keeps_bind; [|intros; apply keeps_lift].
  apply keeps_bind; [|intros; apply keeps_ret].
  by apply keeps_mapM.
Qed.

(** One step through a method body. *)
Ltac keeps_step :=
  lazymatch goal with
  | |- keeps _ _ (engine _ _ _) => apply keeps_engine
  | |- keeps _ _ (call _ _ _) => apply keeps_call
  | |- keeps _ _ (lift _ _) => apply keeps_lift
  | |- keeps _ _ (raise _ _) => apply keeps_raise
  | |- keeps _ _ (getattr _ _) => apply keeps_getattr
  | |- keeps _ _ (get_self _) => apply keeps_get_self
  | |- keeps _ _ (mret _) => apply keeps_ret
  | |- keeps _ _ (mapM _ _) => apply keeps_mapM; intros
  | |- keeps _ _ (mbind _ _) => apply keeps_bind; [|intros]
  end.

Lemma keeps_materialize item : keeps ext I (materialize ext item).
Proof.
  destruct item as [namestring trans_descr]. unfold materialize.
  repeat keeps_step.
Qed.

Lemma keeps_create_simulator source :
  keeps ext I (_create_simulator ext source).
Proof.
  unfold _create_simulator. repeat keeps_step. apply keeps_materialize.
Qed.

Lemma keeps_adapt source : keeps ext I (adapt ext source).
Proof.
  destruct source as [df|src]; unfold adapt; repeat keeps_step.
  case_match; keeps_step.
Qed.

Lemma keeps_run source : keeps ext I (run ext source).
Proof.
  unfold run. repeat keeps_step.
  - apply keeps_adapt.
  - apply keeps_create_simulator.
Qed.

Lemma keeps_perform op :
  (∀ m, op = Method m → assigns m ≠ Some attr) →
  keeps ext I (perform ext op).
Proof.
  intros Hop. destruct op as [m|source]; simpl.
  - apply keeps_bind; [|intros; apply keeps_ret]. apply keeps_invoke. eauto.
  - apply keeps_bind; [|intros; apply keeps_ret]. apply keeps_run.
Qed.

Lemma keeps_perform_all ops w :
  Forall (λ op, ∀ m, op = Method m → assigns m ≠ Some attr) ops →
  I w → I (perform_all ext ops w).
Proof.
  unfold perform_all. intros Hops. revert w.
  induction Hops as [|op ops Hop _ IH]; intros w Hw; simpl; [done|].
  apply IH. by apply keeps_perform.
Qed.

End Keeps.

(** No public method assigns [sids]. *)
Lemma assigns_not_sids m : assigns m ≠ Some "sids".
Proof. by destruct m. Qed.

(** The value of the [sids] attribute, or its absence, is an invariant. *)
Lemma sids_invariant (o : option value) op :
  keeps ext (λ w, self ext w !! "sids" = o) (perform ext op).
Proof.
  assert (∀ e, keeps ext (λ w, self ext w !! "sids" = o) (emit ext e))
    as Hemit by (by intros e w Hw).
  assert (∀ name v, name ≠ "sids" →
            keeps ext (λ w, self ext w !! "sids" = o) (setattr ext name v))
    as Hset.
  { intros name v Hne w Hw. simpl. by rewrite lookup_insert_ne. }
  apply (keeps_perform _ "sids"); try done.
  - intros m. apply keeps_bind; [done|]. intros _.
    apply (keeps_invoke _ "sids"); auto using assigns_not_sids.
  - intros m _. apply assigns_not_sids.
Qed.

(** C6: [set_slippage_override] changes no field of the instance, logs
    nothing and returns [None]; the callable it is given goes nowhere. *)
Theorem set_slippage_override_inert w (slippage_callable : value) :
  set_slippage_override ext slippage_callable w = (w, Ok VNone).
Proof. reflexivity. Qed.

(** C7: an instance built with the default [initialize] answers
    [get_sid_filter] with the [sids] it was constructed with after any
    sequence of public operations, and no public operation, [run]
    included, changes the [sids] attribute of any instance. *)
Theorem sids_read_only (sids : value) args kwargs ops :
  (get_sid_filter ext
     (perform_all ext ops
        (TradingAlgorithm ext (initialize ext) sids args kwargs).1)).2
  = Ok sids
  ∧ ∀ w op, self ext (perform ext op w).1 !! "sids" = self ext w !! "sids".
Proof.
  split.
  - set (w0 := (TradingAlgorithm ext (initialize ext) sids args kwargs).1).
    assert (self ext (perform_all ext ops w0) !! "sids" = Some sids) as H.
    { unfold perform_all. generalize w0 (eq_refl : self ext w0 !! "sids" = Some sids).
      induction ops as [|op ops IH]; intros w Hw; simpl; [done|].
      apply IH. by apply (sids_invariant (Some sids)). }
    unfold get_sid_filter, getattr. simpl. by rewrite H.
  - intros w op. by apply (sids_invariant (self ext w !! "sids")).
Qed.

End Frame.

(** ** The logger attribute *)

Section Logger.
Context (ext : Collaborators).
Implicit Types w : world ext.

Lemma logger_unset_emit e : keeps ext (logger_unset ext) (emit ext e).
Proof.
  intros w Hw H. simpl in *. rewrite existsb_app in H.
  apply orb_false_elim in H as [H _]. by apply Hw.
Qed.

Lemma logger_unset_setattr name v :
  name ≠ "logger" → keeps ext (logger_unset ext) (setattr ext name v).
Proof. intros Hne w Hw H. simpl in *. rewrite lookup_insert_ne; auto. Qed.

Lemma logger_unset_callback m :
  keeps ext (logger_unset ext) (emit ext (Callback ext m);; invoke ext m).
Proof.
  destruct m;
    try (apply keeps_bind; [apply logger_unset_emit|]; intros _;
         apply (keeps_invoke ext _ "logger");
         auto using logger_unset_setattr; done).
  intros w _ H. exfalso. simpl in H. rewrite existsb_app in H. simpl in H.
  by rewrite orb_true_r in H.
Qed.

Lemma logger_unset_perform op :
  is_set_logger op = false → keeps ext (logger_unset ext) (perform ext op).
Proof.
  intros Hop.
  apply (keeps_perform ext _ "logger");
    auto using logger_unset_emit, logger_unset_setattr, logger_unset_callback.
  intros m ->. by destruct m.
Qed.

Lemma logger_unset_perform_all ops w :
  existsb is_set_logger ops = false →
  logger_unset ext w → logger_unset ext (perform_all ext ops w).
Proof.
  unfold perform_all. revert w.
  induction ops as [|op ops IH]; intros w Hops Hw; simpl in *; [done|].
  apply orb_false_elim in Hops as [Hop Hops].
  apply IH; [done|]. by apply logger_unset_perform.
Qed.

(** C10: an instance built with the default [initialize] has [order] and
    [portfolio] attributes that read [None] and no [logger] attribute.
    After any public operations among which nobody, caller or engine,
    called [set_logger], there is still none and reading it raises
    AttributeError; the first [set_logger] creates it. *)
Theorem logger_absent_until_set (sids : value) args kwargs ops (logger : value) :
  existsb is_set_logger ops = false →
  existsb (is_logger_callback ext)
    (trace ext (perform_all ext ops
       (TradingAlgorithm ext (initialize ext) sids args kwargs).1)) = false →
  let w0 := (TradingAlgorithm ext (initialize ext) sids args kwargs).1 in
  let w := perform_all ext ops w0 in
  (self ext w0 !! "logger" = None
   ∧ (getattr ext "logger" w0).2 = Err (AttributeError "logger")
   ∧ (getattr ext "order" w0).2 = Ok VNone
   ∧ (getattr ext "portfolio" w0).2 = Ok VNone)
  ∧ (self ext w !! "logger" = None
     ∧ (getattr ext "logger" w).2 = Err (AttributeError "logger"))
  ∧ (getattr ext "logger" (set_logger ext logger w).1).2 = Ok logger.
Proof.
  intros Hops Htrace w0 w. split; [by repeat split|]. split.
  - assert (self ext w !! "logger" = None) as H.
    { apply (logger_unset_perform_all ops w0 Hops); [|done]. by intros _. }
    split; [done|]. unfold getattr. simpl. by rewrite H.
  - unfold getattr. simpl. by rewrite lookup_insert_eq.
Qed.

End Logger.

(** ** Assembling and driving the simulation *)

Section Assembly.
Context (ext : Collaborators).
Implicit Types w : world ext.

Lemma bind_ok {A B} (m : M ext A) (k : A → M ext B) w w' b :
  (m ≫= k) w = (w', Ok b) →
  ∃ a w1, m w = (w1, Ok a) ∧ k a w1 = (w', Ok b).
Proof.
  rewrite bind_unfold. destruct (m w) as [w1 [a|e]]; [eauto|discriminate].
Qed.

Lemma lift_ok {A} (r : result A) w w' a :
  lift ext r w = (w', Ok a) → w' = w ∧ r = Ok a.
Proof. unfold lift. by intros [= -> ->]. Qed.

Lemma getattr_ok name w w' v :
  getattr ext name w = (w', Ok v) → w' = w ∧ self ext w !! name = Some v.
Proof.
  unfold getattr. destruct (self ext w !! name); [|discriminate].
  by intros [= -> ->].
Qed.

Lemma call_ok {A} e (r : result A) w w' a :
  call ext e r w = (w', Ok a) →
  self ext w' = self ext w ∧ trace ext w' = trace ext w ++ [e] ∧ r = Ok a.
Proof. unfold call. rewrite bind_unfold. simpl. by intros [= <- ->]. Qed.

(** Methods called back change the instance, not the log. *)
Lemma invoke_trace m w : trace ext (invoke ext m w).1 = trace ext w.
Proof.
  destruct m; try done.
  cbn [invoke]. unfold add_transform. rewrite bind_unfold. unfold getattr.
  destruct (self ext w !! "registered_transforms") as [[]|]; done.
Qed.

Lemma callbacks_trace ms w :
  ∃ evs, trace ext (callbacks ext ms w).1 = trace ext w ++ evs
         ∧ Forall (λ e, is_callback ext e = true) evs.
Proof.
  unfold callbacks.
  enough (∃ evs,
    trace ext (mapM (λ m, emit ext (Callback ext m);; invoke ext m) ms w).1
    = trace ext w ++ evs ∧ Forall (λ e, is_callback ext e = true) evs)
    as (evs & Ht & Hevs).
  { exists evs. split; [|done]. rewrite bind_unfold.
    by destruct (mapM (M:=M ext) _ ms w) as [w1 [a|e]]. }
  revert w. induction ms as [|m ms IH]; intros w; simpl.
  - exists []. by rewrite app_nil_r.
  - rewrite bind_unfold.
    destruct ((emit ext (Callback ext m);; invoke ext m) w)
      as [w1 r] eqn:Hm.
    assert (trace ext w1 = trace ext w ++ [Callback ext m]) as Hw1.
    { rewrite bind_unfold in Hm. simpl in Hm.
      pose proof (invoke_trace m
        {| self := self ext w; trace := trace ext w ++ [Callback ext m] |})
        as Hi.
      rewrite Hm in Hi. exact Hi. }
    destruct r as [v|e].
    + rewrite bind_unfold. destruct (IH w1) as (evs & Ht & Hevs).
      exists (Callback ext m :: evs). split; [|by constructor].
      destruct (mapM (M:=M ext) _ ms w1) as [w2 [vs|e]]; simpl in *;
        by rewrite Ht, Hw1, <- app_assoc.
    + exists [Callback ext m]. split; [done|]. by repeat constructor.
Qed.

Lemma engine_trace {A} e (r : list method * result A) w :
  ∃ evs, trace ext (engine ext e r w).1 = trace ext w ++ e :: evs
         ∧ Forall (λ e, is_callback ext e = true) evs.
Proof.
  unfold engine. rewrite bind_unfold. simpl. rewrite bind_unfold.
  destruct (callbacks_trace r.1
    {| self := self ext w; trace := trace ext w ++ [e] |})
    as (evs & Ht & Hevs).
  exists evs. split; [|done].
  destruct (callbacks ext r.1 _) as [w1 [[]|err]]; simpl in *;
    by rewrite Ht, <- app_assoc.
Qed.

Lemma engine_ok {A} e (r : list method * result A) w w' a :
  engine ext e r w = (w', Ok a) → r.2 = Ok a.
Proof.
  unfold engine. intros H.
  apply bind_ok in H as (_ & w1 & _ & H).
  apply bind_ok in H as (_ & w2 & _ & H).
  by apply lift_ok in H as [_ ?].
Qed.

Lemma materialize_ok item w w' sf :
  materialize ext item w = (w', Ok sf) →
  self ext w' = self ext w ∧ wraps ext item sf
  ∧ ∃ e, trace ext w' = trace ext w ++ [e] ∧ is_transform_call ext e = true.
Proof.
  destruct item as [namestring trans_descr]. unfold materialize. intros H.
  apply bind_ok in H as (cls & w1 & [-> Hcls]%lift_ok & H).
  apply bind_ok in H as (args & w2 & [-> Hargs]%lift_ok & H).
  apply bind_ok in H as (kwargs & w3 & [-> Hkwargs]%lift_ok & H).
  apply bind_ok in H as (instance & w4 & (Hself & Htrace & Hsf)%call_ok & H).
  injection H as <- <-.
  split; [done|]. split; [|eauto].
  by exists cls, args, kwargs, instance.
Qed.

Lemma mapM_materialize_ok items w w' transforms :
  mapM (materialize ext) items w = (w', Ok transforms) →
  self ext w' = self ext w ∧ Forall2 (wraps ext) items transforms
  ∧ ∃ evs, trace ext w' = trace ext w ++ evs
           ∧ Forall (λ e, is_transform_call ext e = true) evs.
Proof.
  revert w w' transforms. induction items as [|item items IH];
    intros w w' transforms; simpl.
  - intros [= <- <-]. split; [done|]. split; [constructor|].
    exists []. by rewrite app_nil_r.
  - intros H.
    apply bind_ok in H as (sf & w1 & (Hs1 & Hw & e & Ht1 & He)%materialize_ok & H).
    apply bind_ok in H as (sfs & w2 & (Hs2 & Hws & evs & Ht2 & Hevs)%IH & H).
    injection H as <- <-.
    split; [congruence|]. split; [by constructor|].
    exists (e :: evs). split; [|by constructor].
    by rewrite Ht2, Ht1, <- app_assoc.
Qed.

Lemma constructions_none (evs : list (event ext)) :
  Forall (λ e, is_construction ext e = false) evs → constructions ext evs = [].
Proof.
  unfold constructions. induction 1 as [|e evs He _ IH]; [done|].
  rewrite filter_cons, decide_False; [done|congruence].
Qed.

Lemma callbacks_not_constructions (evs : list (event ext)) :
  Forall (λ e, is_callback ext e = true) evs →
  Forall (λ e, is_construction ext e = false) evs.
Proof. intros H. eapply Forall_impl; [exact H|]. by intros []. Qed.

Lemma transform_calls_not_constructions (evs : list (event ext)) :
  Forall (λ e, is_transform_call ext e = true) evs →
  Forall (λ e, is_construction ext e = false) evs.
Proof. intros H. eapply Forall_impl; [exact H|]. by intros []. Qed.

(** [_create_simulator], when it returns. *)
Lemma create_simulator_ok source w w' sim :
  _create_simulator ext source w = (w', Ok sim) →
  ∃ frame start end_ environment reg transforms slippage before after,
    data source = Some frame
    ∧ index_getitem (df_index frame) 0 = Ok start
    ∧ index_getitem (df_index frame) (-1) = Ok end_
    ∧ create_trading_environment ext start end_ = Ok environment
    ∧ self ext w !! "registered_transforms" = Some (VDict reg)
    ∧ Forall2 (wraps ext) (dict_items ext reg) transforms
    ∧ FixedSlippage ext = Ok slippage
    ∧ (SimulatedTrading ext [source] transforms (self ext w)
         environment slippage).2 = Ok sim
    ∧ trace ext w'
      = trace ext w
        ++ (CallCreateTradingEnvironment ext start end_ :: before)
        ++ [CallFixedSlippage ext;
            CallSimulatedTrading ext [source] transforms (self ext w)
              environment slippage]
        ++ after
    ∧ Forall (λ e, is_transform_call ext e = true) before
    ∧ Forall (λ e, is_callback ext e = true) after.
Proof.
  unfold _create_simulator. intros H.
  apply bind_ok in H as (frame & w1 & [-> Hframe]%lift_ok & H).
  apply bind_ok in H as (start & w1 & [-> Hstart]%lift_ok & H).
  apply bind_ok in H as (end_ & w1 & [-> Hend]%lift_ok & H).
  apply bind_ok in H as (env & w1 & (Hs1 & Ht1 & Henv)%call_ok & H).
  apply bind_ok in H as (regv & w2 & [-> Hreg]%getattr_ok & H).
  apply bind_ok in H as (items & w2 & [-> Hitems]%lift_ok & H).
  apply bind_ok in H
    as (transforms & w2 & (Hs2 & Hwraps & before & Ht2 & Hbefore)%mapM_materialize_ok & H).
  apply bind_ok in H as (slip & w3 & (Hs3 & Ht3 & Hslip)%call_ok & H).
  apply bind_ok in H as (algo & w4 & Halgo & H).
  injection Halgo as <- <-.
  destruct regv; try discriminate. injection Hitems as <-.
  assert (self ext w3 = self ext w) as Hself by congruence.
  rewrite Hself in H.
  pose proof (engine_ok _ _ _ _ _ H) as Hsim.
  destruct (engine_trace
    (CallSimulatedTrading ext [source] transforms (self ext w) env slip)
    (SimulatedTrading ext [source] transforms (self ext w) env slip) w3)
    as (after & Ht4 & Hafter).
  rewrite H in Ht4. simpl in Ht4.
  exists frame, start, end_, env, d, transforms, slip, before, after.
  unfold source_data in Hframe. destruct (data source); [|discriminate].
  injection Hframe as ->.
  do 4 (split; [done|]). split; [by rewrite <- Hs1|].
  do 3 (split; [done|]). split; [|done].
  rewrite Ht4, Ht3, Ht2, Ht1. by rewrite <- !app_assoc.
Qed.

(** *** How many simulations a computation constructs *)

Lemma constructs_none_pure {A} (m : M ext A) :
  (∀ w, trace ext (m w).1 = trace ext w) → constructs_at_most ext 0 m.
Proof. intros H w. exists []. by rewrite app_nil_r, H. Qed.

Lemma constructs_bind_l {A B} n (m : M ext A) (k : A → M ext B) :
  constructs_at_most ext 0 m → (∀ a, constructs_at_most ext n (k a)) →
  constructs_at_most ext n (m ≫= k).
Proof.
  intros Hm Hk w. rewrite bind_unfold.
  destruct (Hm w) as (evs & Ht & Hn). destruct (m w) as [w1 [a|e]].
  - destruct (Hk a w1) as (evs' & Ht' & Hn'). exists (evs ++ evs').
    simpl in *. rewrite Ht', Ht, app_assoc. split; [done|].
    unfold constructions in *. rewrite filter_app, length_app. lia.
  - exists evs. split; [done|]. lia.
Qed.

Lemma constructs_bind_r {A B} n (m : M ext A) (k : A → M ext B) :
  constructs_at_most ext n m → (∀ a, constructs_at_most ext 0 (k a)) →
  constructs_at_most ext n (m ≫= k).
Proof.
  intros Hm Hk w. rewrite bind_unfold.
  destruct (Hm w) as (evs & Ht & Hn). destruct (m w) as [w1 [a|e]].
  - destruct (Hk a w1) as (evs' & Ht' & Hn'). exists (evs ++ evs').
    simpl in *. rewrite Ht', Ht, app_assoc. split; [done|].
    unfold constructions in *. rewrite filter_app, length_app. lia.
  - by exists evs.
Qed.

Lemma constructs_call {A} e (r : result A) :
  is_construction ext e = false → constructs_at_most ext 0 (call ext e r).
Proof.
  intros He w. exists [e]. split; [done|].
  unfold constructions. rewrite filter_cons, decide_False; [done|congruence].
Qed.

Lemma constructs_engine {A} e (r : list method * result A) :
  constructs_at_most ext (if is_construction ext e then 1 else 0)
    (engine ext e r).
Proof.
  intros w. destruct (engine_trace e r w) as (evs & Ht & Hevs).
  exists (e :: evs). split; [done|].
  unfold constructions. rewrite filter_cons.
  fold (constructions ext evs).
  rewrite (constructions_none evs) by by apply callbacks_not_constructions.
  destruct (is_construction ext e); [by rewrite decide_True|].
  by rewrite decide_False.
Qed.

Lemma constructs_mapM {A B} (f : A → M ext B) l :
  (∀ x, constructs_at_most ext 0 (f x)) →
  constructs_at_most ext 0 (mapM f l).
Proof.
  intros Hf. induction l as [|x l IH]; simpl.
  - by apply constructs_none_pure.
  - apply constructs_bind_l; [done|]. intros y.
    apply constructs_bind_l; [done|]. intros ys.
    by apply constructs_none_pure.
Qed.

Lemma constructs_materialize item :
  constructs_at_most ext 0 (materialize ext item).
Proof.
  destruct item as [namestring trans_descr]. unfold materialize.
  do 3 (apply constructs_bind_l; [by apply constructs_none_pure|]; intros).
  apply constructs_bind_l; [by apply constructs_call|]. intros.
  by apply constructs_none_pure.
Qed.

Lemma constructs_adapt source : constructs_at_most ext 0 (adapt ext source).
Proof.
  destruct source as [df|src]; unfold adapt;
    [|by apply constructs_none_pure].
  apply constructs_bind_l.
  { apply constructs_none_pure. intros w. by case_match. }
  intros _. apply constructs_bind_l; [by apply constructs_none_pure|].
  intros sids. by apply constructs_call.
Qed.

Lemma constructs_create_simulator source :
  constructs_at_most ext 1 (_create_simulator ext source).
Proof.
  unfold _create_simulator.
  do 3 (apply constructs_bind_l; [by apply constructs_none_pure|]; intros).
  apply constructs_bind_l; [by apply constructs_call|]. intros.
  do 2 (apply constructs_bind_l; [by apply constructs_none_pure|]; intros).
  apply constructs_bind_l;
    [apply constructs_mapM, constructs_materialize|]. intros.
  apply constructs_bind_l; [by apply constructs_call|]. intros.
  apply constructs_bind_l; [by apply constructs_none_pure|]. intros.
  apply (constructs_engine (CallSimulatedTrading ext _ _ _ _ _)).
Qed.

Lemma constructs_run source : constructs_at_most ext 1 (run ext source).
Proof.
  unfold run. apply constructs_bind_l; [apply constructs_adapt|]. intros src.
  apply constructs_bind_r; [apply constructs_create_simulator|]. intros sim.
  apply constructs_bind_l; [apply (constructs_engine (CallList ext sim))|].
  intros perfs. apply constructs_bind_l; [by apply constructs_none_pure|].
  intros. by apply constructs_none_pure.
Qed.

End Assembly.

Section AssemblyClaims.
Context (ext : Collaborators).
Implicit Types w : world ext.

(** [adapt], when it returns: nothing but the adapter was called. *)
Lemma adapt_ok source w w' src :
  adapt ext source w = (w', Ok src) →
  self ext w' = self ext w
  ∧ ∃ evs, trace ext w' = trace ext w ++ evs
           ∧ Forall (λ e, is_construction ext e = false
                          ∧ is_drive ext e = false) evs.
Proof.
  destruct source as [df|s]; unfold adapt.
  - intros H. apply bind_ok in H as ([] & w1 & Hcheck & H).
    assert (w1 = w) as ->.
    { destruct (is_DatetimeIndex (df_index df)); [|discriminate].
      by injection Hcheck. }
    apply bind_ok in H as (sids & w1 & [-> Hsids]%getattr_ok & H).
    apply call_ok in H as (Hself & Ht & _).
    split; [done|]. eexists. split; [done|]. by repeat constructor.
  - intros [= <- <-]. split; [done|]. exists []. by rewrite app_nil_r.
Qed.

Lemma constructions_one (pre post : list (event ext)) c :
  Forall (λ e, is_construction ext e = false) pre →
  Forall (λ e, is_construction ext e = false) post →
  is_construction ext c = true →
  constructions ext (pre ++ c :: post) = [c].
Proof.
  intros Hpre Hpost Hc. unfold constructions.
  rewrite filter_app, filter_cons, decide_True by done.
  fold (constructions ext pre). fold (constructions ext post).
  by rewrite !constructions_none.
Qed.

(** C1, as the code has it: a frame whose row index is not a
    DatetimeIndex makes [run] raise an assertion error at once; the
    instance and the call log are as they were, so no adapter was called,
    no simulation constructed and no snapshot produced.  The order of the
    timestamps plays no part. *)
Theorem run_checks_index_type w df :
  is_DatetimeIndex (df_index df) = false →
  run ext (Tabular df) w = (w, Err AssertionError)
  ∧ events_of ext (run ext (Tabular df)) w = [].
Proof.
  intros H.
  assert (run ext (Tabular df) w = (w, Err AssertionError)) as Hrun.
  { unfold run, adapt. rewrite !bind_unfold. by rewrite H. }
  split; [done|]. unfold events_of. rewrite Hrun. simpl.
  by rewrite drop_all.
Qed.

(** A DatetimeIndex passes the check whatever the order of its stamps:
    the next thing [run] does is to call the adapter. *)
Lemma run_accepts_datetime_index w df (sids : value) stamps :
  df_index df = DatetimeIndex stamps →
  self ext w !! "sids" = Some sids →
  adapt ext (Tabular df) w
  = ({| self := self ext w;
        trace := trace ext w ++ [CallDataFrameSource ext df sids] |},
     DataFrameSource ext df sids).
Proof.
  intros Hidx Hsids. unfold adapt. rewrite !bind_unfold, Hidx. simpl.
  rewrite bind_unfold. unfold getattr. rewrite Hsids. reflexivity.
Qed.

(** C8: when the source [run] works on keeps a frame with an empty index,
    [run] raises IndexError inside [_create_simulator], before the
    environment is asked for; no simulation is constructed, none is
    iterated, and no report is returned. *)
Theorem run_no_periods w source src frame :
  (adapt ext source w).2 = Ok src →
  data src = Some frame →
  index_values (df_index frame) = [] →
  run ext source w = ((adapt ext source w).1, Err IndexError)
  ∧ _create_simulator ext src (adapt ext source w).1
    = ((adapt ext source w).1, Err IndexError)
  ∧ Forall (λ e, is_construction ext e = false ∧ is_drive ext e = false)
           (events_of ext (run ext source) w).
Proof.
  intros Hadapt Hdata Hempty.
  destruct (adapt ext source w) as [w1 r] eqn:Ha. simpl in *. subst r.
  assert (∀ w', _create_simulator ext src w' = (w', Err IndexError)) as Hsim.
  { intros w'. unfold _create_simulator. rewrite !bind_unfold.
    unfold source_data. rewrite Hdata. simpl.
    unfold index_getitem. by rewrite Hempty, subscript_nil. }
  assert (run ext source w = (w1, Err IndexError)) as Hrun.
  { unfold run. rewrite bind_unfold, Ha, bind_unfold. by rewrite Hsim. }
  split; [done|]. split; [done|].
  unfold events_of. rewrite Hrun. simpl.
  apply adapt_ok in Ha as (_ & evs & -> & Hevs).
  by rewrite drop_app_length.
Qed.

End AssemblyClaims.

(** ** The transform registry *)

Section Registry.
Context (ext : Collaborators).
Implicit Types w : world ext.

Lemma add_transform_registry w (reg : gmap string value) cls tag args kwargs :
  self ext w !! "registered_transforms" = Some (VDict reg) →
  add_transform ext cls tag args kwargs w
  = ({| self := <["registered_transforms" :=
                    VDict (<[tag := descriptor cls args kwargs]> reg)]>
                (self ext w);
        trace := trace ext w |}, Ok VNone).
Proof.
  intros H. unfold add_transform. rewrite bind_unfold. unfold getattr.
  by rewrite H.
Qed.

(** Every instance built by the constructor and used through its public
    operations has a dictionary for a registry. *)
Lemma has_registry_invoke m : keeps ext (has_registry ext) (invoke ext m).
Proof.
  assert (∀ name v, name ≠ "registered_transforms" →
            keeps ext (has_registry ext) (setattr ext name v)) as Hset.
  { intros name v Hne w [reg Hreg]. exists reg. simpl.
    by rewrite lookup_insert_ne. }
  destruct m as [cls tag args kwargs| | | | |];
    try (apply (keeps_invoke ext _ "registered_transforms"); done).
  intros w [reg Hreg]. cbn [invoke].
  rewrite (add_transform_registry w reg) by done. simpl.
  eexists. apply lookup_insert_eq.
Qed.

Lemma has_registry_perform op : keeps ext (has_registry ext) (perform ext op).
Proof.
  assert (∀ e, keeps ext (has_registry ext) (emit ext e)) as Hemit
    by (by intros e w Hw).
  destruct op as [m|source]; simpl.
  - apply keeps_bind; [apply has_registry_invoke|]. intros. apply keeps_ret.
  - apply keeps_bind; [|intros; apply keeps_ret].
    apply keeps_run; [done|].
    intros m. apply keeps_bind; [done|]. intros _.
    apply has_registry_invoke.
Qed.

Lemma has_registry_after (sids : value) args kwargs ops :
  has_registry ext
    (perform_all ext ops
       (TradingAlgorithm ext (initialize ext) sids args kwargs).1).
Proof.
  unfold perform_all.
  generalize (TradingAlgorithm ext (initialize ext) sids args kwargs).1,
    (ex_intro _ ∅ eq_refl
     : has_registry ext
         (TradingAlgorithm ext (initialize ext) sids args kwargs).1).
  induction ops as [|op ops IH]; intros w Hw; simpl; [done|].
  apply IH. by apply has_registry_perform.
Qed.

(** What assembly reads back from a stored descriptor. *)
Lemma wraps_descriptor tag cls args kwargs sf :
  wraps ext (tag, descriptor cls args kwargs) sf →
  ∃ instance, StatefulTransform ext cls args kwargs = Ok instance
              ∧ sf = <["namestring" := VStr tag]> instance.
Proof.
  intros (cls' & args' & kwargs' & instance & Hc & Ha & Hk & Hsf & ->).
  simpl in *. injection Hc as <-. injection Ha as <-. injection Hk as <-.
  by exists instance.
Qed.

Lemma wraps_namestring item sf tag :
  wraps ext item sf → has_namestring tag sf = bool_decide (item.1 = tag).
Proof.
  intros (? & ? & ? & instance & _ & _ & _ & _ & ->).
  unfold has_namestring. by rewrite lookup_insert_eq.
Qed.

Lemma no_transform_named tag items transforms :
  Forall2 (wraps ext) items transforms →
  tag ∉ items.*1 →
  filter (λ sf, has_namestring tag sf = true) transforms = [].
Proof.
  induction 1 as [|item sf items sfs Hw _ IH]; [done|].
  simpl. intros Hnot. apply not_elem_of_cons in Hnot as [Hne Hnot].
  rewrite filter_cons, decide_False; [by apply IH|].
  rewrite (wraps_namestring _ _ _ Hw). intros Heq.
  apply bool_decide_eq_true in Heq. congruence.
Qed.

(** Among the instances built from a registry, one carries a given tag:
    the one built from the entry under that tag. *)
Lemma one_transform_named tag d items transforms :
  NoDup items.*1 →
  (tag, d) ∈ items →
  Forall2 (wraps ext) items transforms →
  ∃ sf, wraps ext (tag, d) sf
        ∧ filter (λ sf, has_namestring tag sf = true) transforms = [sf].
Proof.
  intros Hnd Hin Hall. revert Hnd Hin.
  induction Hall as [|item sf items sfs Hw Hws IH]; intros Hnd Hin.
  - by apply elem_of_nil in Hin.
  - simpl in Hnd. apply NoDup_cons in Hnd as [Hfresh Hnd].
    rewrite filter_cons, (wraps_namestring _ _ tag Hw).
    apply elem_of_cons in Hin as [<-|Hin].
    + exists sf. split; [done|]. simpl.
      rewrite decide_True by by apply bool_decide_eq_true.
      by rewrite (no_transform_named tag _ _ Hws Hfresh).
    + assert (item.1 ≠ tag) as Hne.
      { intros <-. apply Hfresh. apply list_elem_of_fmap.
        by exists (item.1, d). }
      rewrite decide_False; [by apply IH|].
      intros Heq. by apply bool_decide_eq_true in Heq.
Qed.

End Registry.

(** * Examples on the replay engine *)

(** C1 fails as stated: the index [2; 1] is a DatetimeIndex that does not
    increase, and [run] neither raises nor stops short of the simulation:
    one is constructed and iterated, and a report comes back whose index
    is [2; 1]. *)
Lemma run_accepts_unordered_index :
  time_ordered (df_index (prices [2; 1])) = false
  ∧ match (run replay (Tabular (prices [2; 1])) (fresh sids12)).2 with
    | Ok report => df_index report = DatetimeIndex [2; 1]
    | Err _ => False
    end
  ∧ length (constructions replay
              (events_of replay (run replay (Tabular (prices [2; 1])))
                 (fresh sids12))) = 1%nat
  ∧ existsb (is_drive replay)
      (events_of replay (run replay (Tabular (prices [2; 1])))
         (fresh sids12)) = true.
Proof. vm_compute. repeat split. Qed.

Lemma run_checks_index_type_witness :
  run replay (Tabular labelled) (fresh sids12)
  = (fresh sids12, Err AssertionError)
  ∧ events_of replay (run replay (Tabular labelled)) (fresh sids12) = [].
Proof. apply run_checks_index_type. reflexivity. Defined.



(** A cell need not hold what the record holds: beside a number, [None]
    is stored as NaN. *)
Lemma none_beside_a_number_reads_nan :
  match _create_daily_stats replay gappy with
  | Ok report =>
      df_cell report 0 "returns" = Some (VInt 0)
      ∧ df_cell report 1 "returns" = Some VNaN
      ∧ df_cell report 1 "period_close" = Some (VTimestamp 2)
  | Err _ => False
  end.
Proof. vm_compute. repeat split. Qed.

Lemma create_daily_stats_rows_and_order_witness :
  ∃ report,
    _create_daily_stats replay emitted = Ok report
    ∧ nrows report = length (daily_bucket emitted)
    ∧ ∃ stamps, df_index report = DatetimeIndex stamps
        ∧ length stamps = length (daily_bucket emitted)
        ∧ StronglySorted Z.le stamps.
Proof.
  eexists. split; [vm_compute; reflexivity|].
  apply (create_daily_stats_rows_and_order replay emitted);
    vm_compute; reflexivity.
Defined.

Lemma run_no_periods_witness :
  run replay (Tabular (prices [])) (fresh sids12)
  = ((adapt replay (Tabular (prices [])) (fresh sids12)).1, Err IndexError).
Proof.
  eapply (run_no_periods replay (fresh sids12) (Tabular (prices []))).
  - vm_compute. reflexivity.
  - reflexivity.
  - reflexivity.
Defined.

Lemma create_daily_stats_empty_bucket_witness :
  _create_daily_stats replay [replay_summary; replay_summary]
  = Ok {| df_index := DatetimeIndex []; df_columns := []; df_values := [] |}.
Proof.
  apply (create_daily_stats_empty_bucket replay
           [replay_summary; replay_summary]).
  reflexivity.
Defined.

Lemma logger_absent_until_set_witness :
  self replay (perform_all replay session (fresh sids12)) !! "logger" = None
  ∧ (getattr replay "logger"
       (set_logger replay (VRef "log")
          (perform_all replay session (fresh sids12))).1).2
    = Ok (VRef "log").
Proof.
  destruct (logger_absent_until_set replay sids12 [] ∅ session (VRef "log"))
    as (_ & [Hnone _] & Hset).
  - reflexivity.
  - vm_compute. reflexivity.
  - split; [exact Hnone|exact Hset].
Defined.

(** * Further properties of the reducer *)

Section ReducerMore.
Context (ext : Collaborators).

Lemma mapM_result_app_ok {A B} (f : A → result B) l1 l2 k1 k2 :
  mapM f l1 = Ok k1 → mapM f l2 = Ok k2 → mapM f (l1 ++ l2) = Ok (k1 ++ k2).
Proof.
  rewrite !mapM_result_ok. apply Forall2_app.
Qed.

Lemma mapM_result_app_err_l {A B} (f : A → result B) l1 l2 e :
  mapM f l1 = Err e → mapM f (l1 ++ l2) = Err e.
Proof.
  induction l1 as [|x l1 IH]; simpl; [discriminate|].
  destruct (f x) as [y|e']; simpl; [|done].
  destruct (mapM f l1) as [k|e'] eqn:Hl; simpl; [discriminate|].
  intros [= ->]. by rewrite IH.
Qed.

Lemma mapM_result_app_err_r {A B} (f : A → result B) l1 l2 k1 e :
  mapM f l1 = Ok k1 → mapM f l2 = Err e → mapM f (l1 ++ l2) = Err e.
Proof.
  revert k1. induction l1 as [|x l1 IH]; intros k1; simpl; [done|].
  destruct (f x) as [y|e']; simpl; [|discriminate].
  destruct (mapM f l1) as [k|e'] eqn:Hl; simpl; [|discriminate].
  intros _ H. by rewrite (IH k).
Qed.

(** Once every close was read, the frame constructor does not raise. *)
Lemma closes_then_frame (dailies : list value) stamps :
  mapM (close_of_daily ext) dailies = Ok stamps →
  ∃ records : list (gmap string value),
    dailies = VDict <$> records
    ∧ pd_DataFrame (coerce_column ext) dailies stamps
      = Ok (frame_of_records (coerce_column ext) records stamps).
Proof.
  intros Hm. destruct (daily_perfs_are_records _ _ _ Hm) as [records ->].
  exists records. split; [done|]. apply pd_DataFrame_records.
  apply mapM_result_length in Hm. by rewrite length_fmap in Hm.
Qed.

Lemma create_daily_stats_err perfs e :
  _create_daily_stats ext perfs = Err e ↔
  mapM (close_of_daily ext) (omap daily_of perfs) = Err e.
Proof.
  pose proof (create_daily_stats_unfold ext perfs) as Hu.
  destruct (mapM (close_of_daily ext) (omap daily_of perfs))
    as [stamps|e'] eqn:Hm; simpl in Hu; rewrite Hu;
    [|split; by intros [= ->]].
  destruct (closes_then_frame _ _ Hm) as (records & _ & ->).
  split; discriminate.
Qed.

Lemma mapM_closes_readable perfs stamps :
  mapM (close_of_daily ext) (omap daily_of perfs) = Ok stamps →
  closes_readable ext perfs = true.
Proof.
  unfold closes_readable. revert stamps.
  induction perfs as [|p perfs IH]; intros stamps H; [done|].
  apply mapM_result_ok in H. simpl in *.
  destruct (p !! "daily_perf") as [d|].
  - inversion H as [|? t ? ts Hd Hrest]; subst. rewrite Hd. simpl.
    apply (IH ts). by apply mapM_result_ok.
  - apply (IH stamps). by apply mapM_result_ok.
Qed.

(** X1: the reducer returns a report exactly when every record found under
    a [daily_perf] key carries a [period_close] that converts; in every
    other case it raises. *)
Theorem create_daily_stats_returns_iff perfs :
  is_ok (_create_daily_stats ext perfs) = closes_readable ext perfs.
Proof.
  destruct (closes_readable ext perfs) eqn:Hread.
  - destruct (closes_readable_mapM _ _ Hread) as [stamps Hm].
    rewrite create_daily_stats_unfold, Hm. simpl.
    by destruct (closes_then_frame _ _ Hm) as (records & _ & ->).
  - destruct (_create_daily_stats ext perfs) as [report|e] eqn:Hr; [|done].
    apply create_daily_stats_ok in Hr as (records & stamps & _ & Hst & _).
    apply mapM_result_ok, mapM_closes_readable in Hst. congruence.
Qed.

(** X2: the reducer raises what reading the first unreadable daily record
    raises: KeyError for a record without [period_close], TypeError for a
    [daily_perf] that is no record; snapshots after it are not looked at. *)
Theorem create_daily_stats_first_error pre p post daily e :
  closes_readable ext pre = true →
  p !! "daily_perf" = Some daily →
  close_of_daily ext daily = Err e →
  _create_daily_stats ext (pre ++ p :: post) = Err e
  ∧ (∀ d : gmap string value,
       daily = VDict d → d !! "period_close" = None →
       e = KeyError "period_close")
  ∧ ((∀ d, daily ≠ VDict d) → e = TypeError).
Proof.
  intros Hpre Hp He. split; [|split].
  - apply create_daily_stats_err.
    destruct (closes_readable_mapM _ _ Hpre) as [stamps Hm].
    rewrite omap_app. simpl. rewrite Hp.
    eapply mapM_result_app_err_r; [exact Hm|].
    simpl. by rewrite He.
  - intros d -> Hd. unfold close_of_daily in He. simpl in He.
    rewrite Hd in He. simpl in He. congruence.
  - intros Hnot. unfold close_of_daily in He.
    destruct daily; simpl in He; congruence.
Qed.

Lemma daily_bucket_omap perfs :
  omap daily_of (daily_bucket perfs) = omap daily_of perfs.
Proof.
  unfold daily_bucket. induction perfs as [|p perfs IH]; [done|].
  rewrite filter_cons.
  destruct (p !! "daily_perf") as [d|] eqn:Hp.
  - rewrite decide_True by (unfold is_daily; by rewrite Hp).
    simpl. rewrite Hp. f_equal. exact IH.
  - rewrite decide_False by (unfold is_daily; by rewrite Hp).
    simpl. rewrite Hp. exact IH.
Qed.

(** X3: the report depends on the snapshots only through the values under
    their [daily_perf] keys: snapshots without the key can be dropped, and
    two lists with the same daily records in the same order reduce alike,
    whatever else the snapshots carry. *)
Theorem create_daily_stats_daily_only perfs perfs' :
  omap daily_of perfs = omap daily_of perfs' →
  _create_daily_stats ext perfs = _create_daily_stats ext perfs'
  ∧ _create_daily_stats ext perfs
    = _create_daily_stats ext (daily_bucket perfs).
Proof.
  intros H. rewrite !create_daily_stats_unfold. split; [by rewrite H|].
  by rewrite daily_bucket_omap.
Qed.

(** X4: reducing a list in two parts: when both parts reduce, so does the
    whole, with the two indexes one after the other and the rows of both;
    when a part raises, the whole raises what the first failing part
    raises. *)
Theorem create_daily_stats_app a b :
  (∀ e, _create_daily_stats ext a = Err e →
        _create_daily_stats ext (a ++ b) = Err e)
  ∧ (∀ ra e, _create_daily_stats ext a = Ok ra →
             _create_daily_stats ext b = Err e →
             _create_daily_stats ext (a ++ b) = Err e)
  ∧ (∀ ra rb, _create_daily_stats ext a = Ok ra →
              _create_daily_stats ext b = Ok rb →
              ∃ r, _create_daily_stats ext (a ++ b) = Ok r
                   ∧ index_values (df_index r)
                     = index_values (df_index ra)
                       ++ index_values (df_index rb)
                   ∧ nrows r = (nrows ra + nrows rb)%nat).
Proof.
  split; [|split].
  - intros e He. apply create_daily_stats_err in He.
    apply create_daily_stats_err. rewrite omap_app.
    by apply mapM_result_app_err_l.
  - intros ra e Ha Hb.
    apply create_daily_stats_ok in Ha as (_ & sa & _ & Hsa & _).
    apply mapM_result_ok in Hsa.
    apply create_daily_stats_err in Hb.
    apply create_daily_stats_err. rewrite omap_app.
    by eapply mapM_result_app_err_r.
  - intros ra rb Ha Hb.
    apply create_daily_stats_ok in Ha as (reca & sa & Hra & Hsa & _ & ->).
    apply create_daily_stats_ok in Hb as (recb & sb & Hrb & Hsb & _ & ->).
    apply mapM_result_ok in Hsa, Hsb.
    pose proof (mapM_result_app_ok _ _ _ _ _ Hsa Hsb) as Hm.
    rewrite <- omap_app in Hm.
    destruct (closes_then_frame _ _ Hm) as (records & Hrec & Hdf).
    eexists. split.
    { rewrite create_daily_stats_unfold, Hm. simpl. exact Hdf. }
    simpl. split; [by rewrite fmap_app|].
    rewrite !nrows_frame_of_records.
    assert (length (VDict <$> records)
            = length (VDict <$> (reca ++ recb))) as Hlen.
    { by rewrite <- Hrec, omap_app, Hra, Hrb, fmap_app. }
    rewrite !length_fmap, length_app in Hlen. done.
Qed.

(** X5: the loop of the reducer sorts every snapshot into one of its two
    lists and keeps the order: the first list holds the [daily_perf]
    values of the snapshots that have one, the second the snapshots that
    have none, both in encounter order, and together they are as many as
    the snapshots. *)
Theorem split_perfs_partition perfs :
  Forall2 (λ perf daily, perf !! "daily_perf" = Some daily)
          (filter (λ perf, is_daily perf = true) perfs)
          (split_perfs perfs).1
  ∧ (split_perfs perfs).2 = filter (λ perf, is_daily perf = false) perfs
  ∧ (length (split_perfs perfs).1 + length (split_perfs perfs).2
     = length perfs)%nat.
Proof.
  rewrite split_perfs_spec. simpl. split; [|split; [done|]].
  - apply daily_bucket_records.
  - rewrite daily_bucket_length. unfold daily_bucket.
    induction perfs as [|p perfs IH]; [done|].
    rewrite !filter_cons. destruct (is_daily p).
    + rewrite decide_True, decide_False by done. cbn [length]. lia.
    + rewrite decide_False, decide_True by done. cbn [length]. lia.
Qed.

End ReducerMore.

(** * Further properties of the instance and its registry *)

Section InstanceMore.
Context (ext : Collaborators).
Implicit Types w : world ext.

(** X6: a public method touches nothing but the attribute it assigns: every
    other attribute reads as before and the call log is as it was; a
    method that assigns none ([get_sid_filter], [set_slippage_override])
    leaves the whole instance as it was. *)
Theorem invoke_frame m w :
  (∀ name, assigns m ≠ Some name →
     self ext (invoke ext m w).1 !! name = self ext w !! name)
  ∧ trace ext (invoke ext m w).1 = trace ext w
  ∧ (assigns m = None → (invoke ext m w).1 = w).
Proof.
  split; [|split; [apply invoke_trace|by destruct m]].
  intros name Hne.
  destruct m as [cls tag args kwargs| | | | |]; simpl in *;
    try done; try (rewrite lookup_insert_ne; congruence).
  unfold add_transform. rewrite bind_unfold. unfold getattr.
  destruct (self ext w !! "registered_transforms") as [[]|]; simpl;
    try done.
  rewrite lookup_insert_ne; congruence.
Qed.

(** An attribute no public method assigns keeps its value through every
    public operation. *)
Lemma unassigned_invariant name (o : option value) op :
  (∀ m, assigns m ≠ Some name) →
  keeps ext (λ w, self ext w !! name = o) (perform ext op).
Proof.
  intros Hname.
  assert (∀ e, keeps ext (λ w, self ext w !! name = o) (emit ext e))
    as Hemit by (by intros e w Hw).
  assert (∀ n v, n ≠ name →
            keeps ext (λ w, self ext w !! name = o) (setattr ext n v))
    as Hset.
  { intros n v Hne w Hw. simpl. by rewrite lookup_insert_ne. }
  apply (keeps_perform _ _ name); try done.
  intros m. apply keeps_bind; [done|]. intros _.
  by apply (keeps_invoke _ _ name).
Qed.

(** X19: nothing in the module ever updates the completion flag or the
    period counter: on an instance built with the default [initialize],
    [done] reads [False] and [frame_count] reads 0 after any sequence of
    public operations, runs included. *)
Theorem done_and_frame_count_fixed (sids : value) args kwargs ops :
  (getattr ext "done"
     (perform_all ext ops
        (TradingAlgorithm ext (initialize ext) sids args kwargs).1)).2
  = Ok (VBool false)
  ∧ (getattr ext "frame_count"
       (perform_all ext ops
          (TradingAlgorithm ext (initialize ext) sids args kwargs).1)).2
    = Ok (VInt 0).
Proof.
  set (w0 := (TradingAlgorithm ext (initialize ext) sids args kwargs).1).
  assert (∀ name o, (∀ m, assigns m ≠ Some name) →
            self ext w0 !! name = o →
            self ext (perform_all ext ops w0) !! name = o) as Hkeep.
  { intros name o Hname. unfold perform_all. generalize w0.
    induction ops as [|op ops IH]; intros w Hw; simpl; [done|].
    apply IH. by apply (unassigned_invariant name o). }
  unfold getattr. simpl. split.
  - rewrite (Hkeep "done" (Some (VBool false))); [done| |done].
    by intros [].
  - rewrite (Hkeep "frame_count" (Some (VInt 0))); [done| |done].
    by intros [].
Qed.

(** X8: [add_transform] returns exactly on an instance whose
    [registered_transforms] attribute is a dictionary; when it raises
    (AttributeError without the attribute, TypeError when it is no
    dictionary) the instance is as it was.  It never logs a call: nothing
    is instantiated at registration. *)
Theorem add_transform_returns_iff w (cls : value) tag args kwargs :
  (has_registry ext w ↔ (add_transform ext cls tag args kwargs w).2 = Ok VNone)
  ∧ (self ext w !! "registered_transforms" = None →
     add_transform ext cls tag args kwargs w
     = (w, Err (AttributeError "registered_transforms")))
  ∧ ((add_transform ext cls tag args kwargs w).2 ≠ Ok VNone →
     (add_transform ext cls tag args kwargs w).1 = w)
  ∧ trace ext (add_transform ext cls tag args kwargs w).1 = trace ext w.
Proof.
  unfold has_registry, add_transform. rewrite bind_unfold. unfold getattr.
  destruct (self ext w !! "registered_transforms") as [[]|] eqn:Hreg;
    simpl; repeat split; try done; try (by intros [? [=]]);
    try (intros H; by destruct H); eauto.
Qed.

(** X7: registrations under different tags do not depend on their order:
    either way the instance ends up the same. *)
Theorem add_transform_commute w (reg : gmap string value)
    (clsA : value) tagA argsA kwargsA (clsB : value) tagB argsB kwargsB :
  self ext w !! "registered_transforms" = Some (VDict reg) →
  tagA ≠ tagB →
  (add_transform ext clsB tagB argsB kwargsB
     (add_transform ext clsA tagA argsA kwargsA w).1).1
  = (add_transform ext clsA tagA argsA kwargsA
       (add_transform ext clsB tagB argsB kwargsB w).1).1.
Proof.
  intros Hreg Hne.
  rewrite (add_transform_registry ext w reg) by done. simpl.
  erewrite add_transform_registry by (simpl; apply lookup_insert_eq).
  rewrite (add_transform_registry ext w reg clsB) by done. simpl.
  erewrite add_transform_registry by (simpl; apply lookup_insert_eq).
  simpl. rewrite !insert_insert_eq. do 3 f_equal.
  by apply insert_insert_ne.
Qed.

(** X9: what [add_transform] stores, assembly reads back unchanged: the
    entry under the tag is wrapped by calling StatefulTransform with the
    very class, positional and keyword arguments that were registered; the
    instance it returns is named after the tag, and what it raises is
    raised. *)
Theorem descriptor_round_trip w (reg : gmap string value)
    (cls : value) tag args kwargs :
  self ext w !! "registered_transforms" = Some (VDict reg) →
  ∃ (reg' : gmap string value) entry,
    self ext (add_transform ext cls tag args kwargs w).1
      !! "registered_transforms" = Some (VDict reg')
    ∧ reg' !! tag = Some entry
    ∧ ∀ w', materialize ext (tag, entry) w'
            = ((emit ext (CallStatefulTransform ext cls args kwargs) w').1,
               match StatefulTransform ext cls args kwargs with
               | Ok sf => Ok (<["namestring" := VStr tag]> sf)
               | Err e => Err e
               end).
Proof.
  intros Hreg. rewrite (add_transform_registry ext w reg) by done. simpl.
  eexists _, _. split; [apply lookup_insert_eq|].
  split; [apply lookup_insert_eq|].
  intros w'. unfold materialize.
  assert (getitem (descriptor cls args kwargs) "class" = Ok cls) as Hc
    by reflexivity.
  assert (getitem (descriptor cls args kwargs) "args" ≫= star ext = Ok args)
    as Ha by reflexivity.
  assert (getitem (descriptor cls args kwargs) "kwargs" ≫= starstar
          = Ok kwargs) as Hk by reflexivity.
  rewrite Hc, Ha, Hk. unfold call, lift, emit. rewrite !bind_unfold.
  by destruct (StatefulTransform ext cls args kwargs).
Qed.

Lemma registry_well_formed_invoke m :
  keeps ext (registry_well_formed ext) (invoke ext m).
Proof.
  assert (∀ name v, name ≠ "registered_transforms" →
            keeps ext (registry_well_formed ext) (setattr ext name v))
    as Hset.
  { intros name v Hne w (reg & Hreg & Hall). exists reg. simpl.
    by rewrite lookup_insert_ne. }
  destruct m as [cls tag args kwargs| | | | |];
    try (apply (keeps_invoke ext _ "registered_transforms"); done).
  intros w (reg & Hreg & Hall). cbn [invoke].
  rewrite (add_transform_registry ext w reg) by done. simpl.
  eexists. split; [apply lookup_insert_eq|].
  apply map_Forall_insert_2; [|done]. by exists cls, args, kwargs.
Qed.

Lemma registry_well_formed_perform op :
  keeps ext (registry_well_formed ext) (perform ext op).
Proof.
  assert (∀ e, keeps ext (registry_well_formed ext) (emit ext e)) as Hemit
    by (by intros e w Hw).
  destruct op as [m|source]; simpl.
  - apply keeps_bind; [apply registry_well_formed_invoke|].
    intros. apply keeps_ret.
  - apply keeps_bind; [|intros; apply keeps_ret].
    apply keeps_run; [done|].
    intros m. apply keeps_bind; [done|]. intros _.
    apply registry_well_formed_invoke.
Qed.

(** X10: on an instance built with the default [initialize] and used
    through its public operations, every entry of the registry is a
    descriptor as [add_transform] writes it, so assembly finds a class, a
    sequence of positional arguments and a mapping of keyword arguments in
    each: reading a registered entry never raises. *)
Theorem registry_entries_readable (sids : value) args kwargs ops :
  ∃ reg : gmap string value,
    self ext
      (perform_all ext ops
         (TradingAlgorithm ext (initialize ext) sids args kwargs).1)
      !! "registered_transforms" = Some (VDict reg)
    ∧ ∀ tag entry, reg !! tag = Some entry →
        ∃ cls a k,
          entry = descriptor cls a k
          ∧ getitem entry "class" = Ok cls
          ∧ getitem entry "args" ≫= star ext = Ok a
          ∧ getitem entry "kwargs" ≫= starstar = Ok k.
Proof.
  assert (registry_well_formed ext
            (perform_all ext ops
               (TradingAlgorithm ext (initialize ext) sids args kwargs).1))
    as (reg & Hreg & Hall).
  { unfold perform_all.
    generalize (TradingAlgorithm ext (initialize ext) sids args kwargs).1,
      (ex_intro _ ∅ (conj eq_refl (map_Forall_empty _))
       : registry_well_formed ext
           (TradingAlgorithm ext (initialize ext) sids args kwargs).1).
    induction ops as [|op ops IH]; intros w Hw; simpl; [done|].
    apply IH. by apply registry_well_formed_perform. }
  exists reg. split; [done|]. intros tag entry Hentry.
  destruct (Hall tag entry Hentry) as (cls & a & k & ->).
  by exists cls, a, k.
Qed.

Lemma setattr_bind {B} name (v : value) (k : () → M ext B) w :
  (setattr ext name v ≫= k) w
  = k () {| self := <[name := v]> (self ext w); trace := trace ext w |}.
Proof. reflexivity. Qed.

(** X18: [__init__] creates the registry before it calls the hook, so an
    [initialize] that registers a transform from the forwarded arguments
    works: construction returns, and the registry holds that one
    descriptor. *)
Theorem initialize_may_register (cls : value) tag (sids : value) args kwargs :
  (TradingAlgorithm ext (λ a k, add_transform ext cls tag a k)
     sids args kwargs).2 = Ok VNone
  ∧ self ext
      (TradingAlgorithm ext (λ a k, add_transform ext cls tag a k)
         sids args kwargs).1 !! "registered_transforms"
    = Some (VDict {[ tag := descriptor cls args kwargs ]})
  ∧ self ext
      (TradingAlgorithm ext (λ a k, add_transform ext cls tag a k)
         sids args kwargs).1 !! "sids" = Some sids.
Proof.
  unfold TradingAlgorithm, __init__. rewrite !setattr_bind, bind_unfold.
  erewrite add_transform_registry by (simpl; apply lookup_insert_eq).
  unfold mret, M_ret. cbn [self fst snd].
  rewrite lookup_insert_eq, insert_empty. by repeat split.
Qed.

End InstanceMore.

(** * Further properties of assembly and of [run] *)

Section AssemblyMore.
Context (ext : Collaborators).
Implicit Types w : world ext.

Lemma lift_bind {A B} (r : result A) (k : A → M ext B) w :
  (lift ext r ≫= k) w
  = match r with
    | Ok a => k a w
    | Err e => (w, Err e)
    end.
Proof. rewrite bind_unfold. unfold lift. by destruct r. Qed.

Lemma getattr_bind {B} name (k : value → M ext B) w :
  (getattr ext name ≫= k) w
  = match self ext w !! name with
    | Some v => k v w
    | None => (w, Err (AttributeError name))
    end.
Proof.
  rewrite bind_unfold. unfold getattr. by destruct (self ext w !! name).
Qed.

Lemma get_self_bind {B} (k : gmap string value → M ext B) w :
  (get_self ext ≫= k) w = k (self ext w) w.
Proof. reflexivity. Qed.

Lemma call_bind {A B} e (r : result A) (k : A → M ext B) w :
  (call ext e r ≫= k) w
  = match r with
    | Ok a => k a (emit ext e w).1
    | Err x => ((emit ext e w).1, Err x)
    end.
Proof. rewrite bind_unfold. unfold call. by destruct r. Qed.

Lemma subscript_first {A} (a : A) l : subscript (a :: l) 0 = Ok a.
Proof. reflexivity. Qed.

Lemma subscript_last {A} (a : A) l :
  subscript (a :: l) (-1) = Ok (default a (last l)).
Proof.
  unfold subscript. cbn [Z.ltb Z.compare].
  replace (-1 + Z.of_nat (length (a :: l))) with (Z.of_nat (length l))
    by (simpl; lia).
  destruct (Z.ltb_spec (Z.of_nat (length l)) 0) as [|_]; [lia|].
  rewrite Nat2Z.id.
  destruct l as [|b l]; [done|].
  rewrite last_lookup.
  change ((a :: b :: l) !! length (b :: l)) with ((b :: l) !! length l).
  change (Nat.pred (length (b :: l))) with (length l).
  destruct ((b :: l) !! length l) eqn:H; [done|].
  apply lookup_ge_None in H. simpl in H. lia.
Qed.

(** X13: a source object that keeps no [data] makes [run] raise
    AttributeError before anything is called: no environment is asked
    for, nothing is constructed. *)
Theorem run_source_without_data source w :
  data source = None →
  _create_simulator ext source w = (w, Err (AttributeError "data"))
  ∧ run ext (Native source) w = (w, Err (AttributeError "data")).
Proof.
  intros Hdata.
  assert (_create_simulator ext source w = (w, Err (AttributeError "data")))
    as Hsim.
  { unfold _create_simulator. rewrite lift_bind. unfold source_data.
    by rewrite Hdata. }
  split; [done|]. unfold run. rewrite bind_unfold. simpl.
  rewrite bind_unfold. by rewrite Hsim.
Qed.

(** X12: the environment is asked for with the first and the last label
    of the source's index as they stand, by position; when the factory
    raises, [run] raises the same, with that one call logged and nothing
    else done: no transform wrapped, no simulation constructed. *)
Theorem run_environment_error source frame (a : value) l e w :
  data source = Some frame →
  index_values (df_index frame) = a :: l →
  create_trading_environment ext a (default a (last l)) = Err e →
  _create_simulator ext source w
  = ((emit ext (CallCreateTradingEnvironment ext a (default a (last l))) w).1,
     Err e)
  ∧ run ext (Native source) w
    = ((emit ext (CallCreateTradingEnvironment ext a (default a (last l)))
          w).1, Err e).
Proof.
  intros Hdata Hidx Henv.
  assert (_create_simulator ext source w
          = ((emit ext (CallCreateTradingEnvironment ext a
                          (default a (last l))) w).1, Err e)) as Hsim.
  { unfold _create_simulator. rewrite lift_bind. unfold source_data.
    rewrite Hdata. unfold index_getitem. rewrite Hidx.
    rewrite lift_bind, subscript_first, lift_bind, subscript_last.
    by rewrite call_bind, Henv. }
  split; [done|]. unfold run. rewrite bind_unfold. simpl.
  rewrite bind_unfold. by rewrite Hsim.
Qed.

(** X20: for a frame with a DatetimeIndex the adapter is called once, with
    the frame as given and the instance's [sids]; when it raises, [run]
    raises the same and does nothing else. *)
Theorem run_adapter_error w df (sids : value) stamps e :
  df_index df = DatetimeIndex stamps →
  self ext w !! "sids" = Some sids →
  DataFrameSource ext df sids = Err e →
  run ext (Tabular df) w
  = ((emit ext (CallDataFrameSource ext df sids) w).1, Err e).
Proof.
  intros Hidx Hsids Herr. unfold run. rewrite bind_unfold.
  rewrite (run_accepts_datetime_index ext w df sids stamps) by done.
  by rewrite Herr.
Qed.

(** What wrapping one entry logs, whether it returns or raises. *)
Lemma materialize_log item w :
  self ext (materialize ext item w).1 = self ext w
  ∧ ∃ evs, trace ext (materialize ext item w).1 = trace ext w ++ evs
           ∧ Forall (λ e, is_transform_call ext e = true) evs
           ∧ (is_ok (materialize ext item w).2 = true → length evs = 1%nat).
Proof.
  destruct item as [namestring trans_descr]. unfold materialize.
  rewrite lift_bind.
  destruct (getitem trans_descr "class") as [cls|e];
    [|split; [done|]; exists []; by rewrite app_nil_r].
  rewrite lift_bind.
  destruct (getitem trans_descr "args" ≫= star ext) as [args|e];
    [|split; [done|]; exists []; by rewrite app_nil_r].
  rewrite lift_bind.
  destruct (getitem trans_descr "kwargs" ≫= starstar) as [kwargs|e];
    [|split; [done|]; exists []; by rewrite app_nil_r].
  rewrite call_bind.
  destruct (StatefulTransform ext cls args kwargs) as [sf|e]; simpl;
    (split; [done|]); eexists [_]; by repeat constructor.
Qed.

Lemma mapM_materialize_log items w :
  self ext (mapM (materialize ext) items w).1 = self ext w
  ∧ ∃ evs,
      trace ext (mapM (materialize ext) items w).1 = trace ext w ++ evs
      ∧ Forall (λ e, is_transform_call ext e = true) evs
      ∧ (is_ok (mapM (materialize ext) items w).2 = true →
         length evs = length items).
Proof.
  revert w. induction items as [|item items IH]; intros w; simpl.
  - split; [done|]. exists []. by rewrite app_nil_r.
  - rewrite bind_unfold.
    destruct (materialize_log item w) as (Hs1 & evs1 & Ht1 & Hevs1 & Hlen1).
    destruct (materialize ext item w) as [w1 [sf|e]]; simpl in *.
    + rewrite bind_unfold.
      destruct (IH w1) as (Hs2 & evs2 & Ht2 & Hevs2 & Hlen2).
      destruct (mapM (materialize ext) items w1) as [w2 [sfs|e]];
        simpl in *.
      * split; [congruence|]. exists (evs1 ++ evs2).
        rewrite Ht2, Ht1, app_assoc. split; [done|].
        split; [by apply Forall_app|]. intros _.
        rewrite length_app, Hlen1, Hlen2 by done. done.
      * split; [congruence|]. exists (evs1 ++ evs2).
        rewrite Ht2, Ht1, app_assoc. split; [done|].
        split; [by apply Forall_app|]. done.
    + split; [done|]. exists evs1. split; [done|]. split; done.
Qed.

Lemma transform_calls_are_assembly (evs : list (event ext)) :
  Forall (λ e, is_transform_call ext e = true) evs →
  Forall (λ e, is_assembly_call ext e = true) evs.
Proof. intros H. eapply Forall_impl; [exact H|]. by intros []. Qed.

(** The two ways [_create_simulator] can go: it raises before the
    simulation is constructed, having called only the environment
    factory, the transform wrapper and the slippage model; or it reaches
    the constructor, with everything the constructor is handed in place. *)
Lemma create_simulator_cases source w :
  ((∃ e, (_create_simulator ext source w).2 = Err e)
   ∧ self ext (_create_simulator ext source w).1 = self ext w
   ∧ ∃ evs, trace ext (_create_simulator ext source w).1
            = trace ext w ++ evs
            ∧ Forall (λ e, is_assembly_call ext e = true) evs)
  ∨ (∃ frame start end_ environment reg transforms slippage before after,
       data source = Some frame
       ∧ index_getitem (df_index frame) 0 = Ok start
       ∧ index_getitem (df_index frame) (-1) = Ok end_
       ∧ create_trading_environment ext start end_ = Ok environment
       ∧ self ext w !! "registered_transforms" = Some (VDict reg)
       ∧ Forall2 (wraps ext) (dict_items ext reg) transforms
       ∧ FixedSlippage ext = Ok slippage
       ∧ trace ext (_create_simulator ext source w).1
         = trace ext w
           ++ (CallCreateTradingEnvironment ext start end_ :: before)
           ++ [CallFixedSlippage ext;
               CallSimulatedTrading ext [source] transforms (self ext w)
                 environment slippage]
           ++ after
       ∧ Forall (λ e, is_transform_call ext e = true) before
       ∧ length before = length transforms
       ∧ Forall (λ e, is_callback ext e = true) after
       ∧ ∀ sim, (_create_simulator ext source w).2 = Ok sim →
           (SimulatedTrading ext [source] transforms (self ext w)
              environment slippage).2 = Ok sim).
Proof.
  unfold _create_simulator. rewrite lift_bind.
  assert (∀ (w' : world ext) (e : exn) (evs : list (event ext)),
    self ext w' = self ext w → trace ext w' = trace ext w ++ evs →
    Forall (λ e, is_assembly_call ext e = true) evs →
    (∃ e0, (w', @Err (Simulation ext) e).2 = Err e0)
    ∧ self ext (w', @Err (Simulation ext) e).1 = self ext w
    ∧ ∃ evs0, trace ext (w', @Err (Simulation ext) e).1
              = trace ext w ++ evs0
              ∧ Forall (λ e, is_assembly_call ext e = true) evs0) as Hfail.
  { intros w' e evs Hs Ht Hevs. simpl. eauto 6. }
  unfold source_data.
  destruct (data source) as [frame|] eqn:Hdata;
    [|left; apply (Hfail _ _ []); by rewrite ?app_nil_r].
  rewrite lift_bind.
  destruct (index_getitem (df_index frame) 0) as [start|e] eqn:Hstart;
    [|left; apply (Hfail _ _ []); by rewrite ?app_nil_r].
  rewrite lift_bind.
  destruct (index_getitem (df_index frame) (-1)) as [end_|e] eqn:Hend;
    [|left; apply (Hfail _ _ []); by rewrite ?app_nil_r].
  rewrite call_bind.
  set (ev := CallCreateTradingEnvironment ext start end_).
  destruct (create_trading_environment ext start end_) as [env|e] eqn:Henv;
    [|left; apply (Hfail _ _ [ev]); by repeat constructor].
  set (w1 := (emit ext ev w).1).
  rewrite getattr_bind.
  destruct (self ext w1 !! "registered_transforms") as [regv|] eqn:Hreg;
    [|left; apply (Hfail _ _ [ev]); by repeat constructor].
  rewrite lift_bind.
  destruct regv as [| | | | | | | |reg|];
    try (left; apply (Hfail _ _ [ev]); by repeat constructor).
  cbn [iteritems]. rewrite bind_unfold.
  destruct (mapM_materialize_log (dict_items ext reg) w1)
    as (Hs2 & before & Ht2 & Hbefore & Hlen).
  destruct (mapM (materialize ext) (dict_items ext reg) w1)
    as [w2 [transforms|e]] eqn:Hm; simpl in Hs2, Ht2, Hlen.
  2:{ left. apply (Hfail _ _ (ev :: before)).
      - done.
      - rewrite Ht2. subst w1. simpl. by rewrite <- app_assoc.
      - constructor; [done|]. by apply transform_calls_are_assembly. }
  apply mapM_materialize_ok in Hm as (_ & Hwraps & _).
  rewrite call_bind.
  destruct (FixedSlippage ext) as [slip|e] eqn:Hslip.
  2:{ left. apply (Hfail _ _ (ev :: before ++ [CallFixedSlippage ext])).
      - done.
      - simpl. rewrite Ht2. subst w1. simpl. by rewrite <- !app_assoc.
      - constructor; [done|]. apply Forall_app.
        split; [by apply transform_calls_are_assembly|].
        by repeat constructor. }
  rewrite get_self_bind. cbn [emit fst self]. rewrite Hs2. cbn [w1 emit fst self].
  set (c := CallSimulatedTrading ext [source] transforms (self ext w) env slip).
  set (w3 := {| self := self ext w;
                trace := trace ext w2 ++ [CallFixedSlippage ext] |}).
  destruct (engine_trace ext c
              (SimulatedTrading ext [source] transforms (self ext w) env slip)
              w3) as (after & Ht4 & Hafter).
  right.
  exists frame, start, end_, env, reg, transforms, slip, before, after.
  do 7 (split; [done|]). split.
  { rewrite Ht4. subst w3. cbn [trace]. rewrite Ht2. subst w1. simpl.
    by rewrite <- !app_assoc. }
  split; [done|]. split; [eapply Forall2_length in Hwraps; by rewrite Hlen, <- Hwraps|].
  split; [done|]. intros sim Hsim.
  destruct (engine ext c _ w3) as [w4 r] eqn:Heng. simpl in Hsim. subst r.
  by apply engine_ok in Heng.
Qed.

End AssemblyMore.

Section RunMore.
Context (ext : Collaborators).
Implicit Types w : world ext.

Lemma assembly_calls_not_constructions (evs : list (event ext)) :
  Forall (λ e, is_assembly_call ext e = true) evs →
  Forall (λ e, is_construction ext e = false) evs.
Proof. intros H. eapply Forall_impl; [exact H|]. by intros []. Qed.

Lemma assembly_calls_not_drives (evs : list (event ext)) :
  Forall (λ e, is_assembly_call ext e = true) evs →
  Forall (λ e, is_drive ext e = false) evs.
Proof. intros H. eapply Forall_impl; [exact H|]. by intros []. Qed.

Lemma callbacks_not_drives (evs : list (event ext)) :
  Forall (λ e, is_callback ext e = true) evs →
  Forall (λ e, is_drive ext e = false) evs.
Proof. intros H. eapply Forall_impl; [exact H|]. by intros []. Qed.

Lemma adapter_calls_not_drives (evs : list (event ext)) :
  Forall (λ e, is_adapter_call ext e = true) evs →
  Forall (λ e, is_drive ext e = false) evs.
Proof. intros H. eapply Forall_impl; [exact H|]. by intros []. Qed.

(** X11: when the transform wrapper raises for a registered descriptor,
    assembly raises: the simulation is never constructed (only the
    environment factory, the wrapper and the slippage model may have been
    called), the instance is as it was, and [run] returns no report. *)
Theorem transform_error_stops_assembly source w (reg : gmap string value)
    tag (cls : value) a k e :
  self ext w !! "registered_transforms" = Some (VDict reg) →
  reg !! tag = Some (descriptor cls a k) →
  StatefulTransform ext cls a k = Err e →
  is_ok (_create_simulator ext source w).2 = false
  ∧ self ext (_create_simulator ext source w).1 = self ext w
  ∧ Forall (λ ev, is_assembly_call ext ev = true)
           (events_of ext (_create_simulator ext source) w)
  ∧ is_ok (run ext (Native source) w).2 = false
  ∧ constructions ext (events_of ext (run ext (Native source)) w) = [].
Proof.
  intros Hreg Htag Herr.
  assert (is_ok (_create_simulator ext source w).2 = false
          ∧ self ext (_create_simulator ext source w).1 = self ext w
          ∧ Forall (λ ev, is_assembly_call ext ev = true)
                   (events_of ext (_create_simulator ext source) w))
    as (Hfail & Hself & Hevs).
  { destruct (create_simulator_cases ext source w)
      as [([e' He'] & Hs & evs & Ht & Hevs)
         |(frame & start & end_ & env & reg' & ts & slip & before & after
           & _ & _ & _ & _ & Hreg' & Hwraps & _)].
    - rewrite He'. split; [done|]. split; [done|].
      unfold events_of. by rewrite Ht, drop_app_length.
    - exfalso. rewrite Hreg in Hreg'. injection Hreg' as <-.
      assert ((tag, descriptor cls a k) ∈ dict_items ext reg) as Hin
        by by apply elem_of_dict_items.
      apply list_elem_of_lookup in Hin as [i Hi].
      destruct (Forall2_lookup_l _ _ _ _ _ Hwraps Hi) as (sf & _ & Hsf).
      apply wraps_descriptor in Hsf as (instance & Hinst & _). congruence. }
  do 3 (split; [done|]).
  unfold events_of in *. unfold run. rewrite bind_unfold. simpl.
  rewrite bind_unfold.
  destruct (_create_simulator ext source w) as [w' [sim|e']];
    [discriminate|]. simpl in *. split; [done|].
  by apply constructions_none, assembly_calls_not_constructions.
Qed.

(** What [adapt] logs, whether it returns or raises. *)
Lemma adapt_log source w :
  self ext (adapt ext source w).1 = self ext w
  ∧ ∃ evs, trace ext (adapt ext source w).1 = trace ext w ++ evs
           ∧ Forall (λ e, is_adapter_call ext e = true) evs.
Proof.
  destruct source as [df|src]; unfold adapt.
  - rewrite bind_unfold.
    destruct (is_DatetimeIndex (df_index df)); simpl;
      [|split; [done|]; exists []; by rewrite app_nil_r].
    rewrite getattr_bind.
    destruct (self ext w !! "sids") as [sids|];
      [|split; [done|]; exists []; by rewrite app_nil_r].
    split; [done|]. eexists [_]. by repeat constructor.
  - split; [done|]. exists []. by rewrite app_nil_r.
Qed.

Lemma lookup_only_drive (pre post : list (event ext)) x i y :
  Forall (λ e, is_drive ext e = false) pre →
  Forall (λ e, is_drive ext e = false) post →
  (pre ++ x :: post) !! i = Some y →
  is_drive ext y = true →
  i = length pre ∧ y = x.
Proof.
  intros Hpre Hpost Hi Hy.
  apply lookup_app_Some in Hi as [Hi|[Hge Hi]].
  - rewrite Forall_lookup in Hpre. specialize (Hpre _ _ Hi). congruence.
  - destruct (i - length pre)%nat as [|n] eqn:Hn; simpl in Hi.
    + injection Hi as <-. split; [lia|done].
    + rewrite Forall_lookup in Hpost. specialize (Hpost _ _ Hi). congruence.
Qed.

(** The log of a call of [run]: either no simulation was iterated, or one
    was, after it was constructed from the source [run] works on. *)
Lemma run_log source w :
  Forall (λ e, is_drive ext e = false) (events_of ext (run ext source) w)
  ∨ ∃ src sim transforms environment slippage pre mid post,
      (adapt ext source w).2 = Ok src
      ∧ (SimulatedTrading ext [src] transforms (self ext w)
           environment slippage).2 = Ok sim
      ∧ events_of ext (run ext source) w
        = pre ++ CallSimulatedTrading ext [src] transforms (self ext w)
                   environment slippage
              :: mid ++ CallList ext sim :: post
      ∧ Forall (λ e, is_drive ext e = false) pre
      ∧ Forall (λ e, is_drive ext e = false) mid
      ∧ Forall (λ e, is_drive ext e = false) post.
Proof.
  unfold events_of, run. rewrite bind_unfold.
  destruct (adapt_log source w) as (Hs0 & evs0 & Ht0 & Hevs0).
  apply adapter_calls_not_drives in Hevs0.
  destruct (adapt ext source w) as [w1 [src|e]] eqn:Ha; simpl in *.
  2:{ left. by rewrite Ht0, drop_app_length. }
  rewrite bind_unfold.
  destruct (create_simulator_cases ext src w1)
    as [([e' He'] & Hs & evs & Ht & Hevs)
       |(frame & start & end_ & env & reg & ts & slip & before & after
         & _ & _ & _ & _ & _ & _ & _ & Ht & Hbefore & _ & Hafter & Hsim)].
  { left. destruct (_create_simulator ext src w1) as [w2 r].
    simpl in *. subst r. simpl. rewrite Ht, Ht0, <- app_assoc.
    rewrite drop_app_length. apply Forall_app. split; [done|].
    by apply assembly_calls_not_drives. }
  rewrite Hs0 in *.
  set (c := CallSimulatedTrading ext [src] ts (self ext w) env slip) in *.
  set (pre := evs0 ++ CallCreateTradingEnvironment ext start end_
                :: before ++ [CallFixedSlippage ext]).
  assert (Forall (λ e, is_drive ext e = false) pre) as Hpre.
  { apply Forall_app. split; [done|]. constructor; [done|].
    apply Forall_app. split; [|by repeat constructor].
    by apply assembly_calls_not_drives, transform_calls_are_assembly. }
  apply callbacks_not_drives in Hafter.
  assert (trace ext (_create_simulator ext src w1).1
          = trace ext w ++ pre ++ c :: after) as Htw2.
  { rewrite Ht, Ht0. subst pre. rewrite <- !app_assoc. simpl.
    rewrite <- !app_assoc. reflexivity. }
  clear Ht.
  destruct (_create_simulator ext src w1) as [w2 [sim|e]];
    cbn [fst snd] in *.
  2:{ left. rewrite Htw2, drop_app_length.
      apply Forall_app. split; [done|]. by constructor. }
  right. specialize (Hsim sim eq_refl).
  rewrite bind_unfold.
  destruct (engine_trace ext (CallList ext sim) (snapshots ext sim) w2)
    as (evs2 & Ht2 & Hevs2).
  apply callbacks_not_drives in Hevs2.
  exists src, sim, ts, env, slip, pre, after, evs2.
  do 2 (split; [done|]). split; [|done].
  assert (∀ w3 : world ext,
    trace ext w3 = trace ext w2 ++ CallList ext sim :: evs2 →
    drop (length (trace ext w)) (trace ext w3)
    = pre ++ c :: after ++ CallList ext sim :: evs2) as Hshape.
  { intros w3 ->. rewrite Htw2, <- !app_assoc. rewrite drop_app_length.
    simpl. by rewrite <- ?app_assoc. }
  destruct (engine ext (CallList ext sim) (snapshots ext sim) w2)
    as [w3 [perfs|e]]; cbn [fst snd] in *.
  - rewrite lift_bind.
    destruct (_create_daily_stats ext perfs); by apply Hshape.
  - by apply Hshape.
Qed.

(** X17: [run] iterates nothing it has not constructed: wherever the log
    of a call of [run] shows a simulation being iterated, it shows before
    that the construction that returned this very simulation, from the
    source [run] worked on and the instance as it was when [run] was
    called. *)
Theorem run_drives_what_it_constructed w source i sim :
  events_of ext (run ext source) w !! i = Some (CallList ext sim) →
  ∃ j src transforms environment slippage,
    (j < i)%nat
    ∧ events_of ext (run ext source) w !! j
      = Some (CallSimulatedTrading ext [src] transforms (self ext w)
                environment slippage)
    ∧ (adapt ext source w).2 = Ok src
    ∧ (SimulatedTrading ext [src] transforms (self ext w)
         environment slippage).2 = Ok sim.
Proof.
  intros Hi.
  destruct (run_log source w)
    as [Hnone|(src & sim' & ts & env & slip & pre & mid & post
               & Ha & Hsim & Hevs & Hpre & Hmid & Hpost)].
  - rewrite Forall_lookup in Hnone. by specialize (Hnone _ _ Hi).
  - rewrite Hevs in Hi |- *.
    change (pre ++ ?c :: mid ++ ?d :: post)
      with (pre ++ (c :: mid) ++ d :: post) in Hi.
    rewrite app_assoc in Hi.
    apply lookup_only_drive in Hi as [-> [= <-]]; try done.
    2:{ apply Forall_app. split; [done|]. by constructor. }
    exists (length pre), src, ts, env, slip.
    split; [rewrite length_app; simpl; lia|].
    split; [|done]. by rewrite list_lookup_middle.
Qed.

(** [run], when it returns. *)
Lemma run_ok_inv w source report :
  (run ext source w).2 = Ok report →
  ∃ src sim perfs,
    (adapt ext source w).2 = Ok src
    ∧ (_create_simulator ext src (adapt ext source w).1).2 = Ok sim
    ∧ (snapshots ext sim).2 = Ok perfs
    ∧ _create_daily_stats ext perfs = Ok report.
Proof.
  intros Hok. destruct (run ext source w) as [w' r] eqn:Hrun.
  simpl in Hok. subst r. unfold run in Hrun.
  apply bind_ok in Hrun as (src & w1 & Hadapt & Hrun).
  apply bind_ok in Hrun as (sim & w2 & Hsim & Hrun).
  apply bind_ok in Hrun as (perfs & w3 & Hdrive & Hrun).
  apply bind_ok in Hrun as (stats & w4 & [-> Hstats]%lift_ok & Hrun).
  injection Hrun as _ ->.
  exists src, sim, perfs. rewrite Hadapt. simpl. rewrite Hsim. simpl.
  split; [done|]. split; [done|]. split; [|done].
  by apply engine_ok in Hdrive.
Qed.

(** X14: the report [run] returns is the reduction of the snapshots the
    simulation it constructed gave when iterated: nothing else goes into
    it. *)
Theorem run_returns_reduction w source report :
  (run ext source w).2 = Ok report →
  ∃ src sim perfs,
    (adapt ext source w).2 = Ok src
    ∧ (_create_simulator ext src (adapt ext source w).1).2 = Ok sim
    ∧ (snapshots ext sim).2 = Ok perfs
    ∧ _create_daily_stats ext perfs = Ok report.
Proof. apply run_ok_inv. Qed.

(** X15: there are no partial results: when iterating the simulation
    raises, or the reducer raises on the snapshots it gave, [run] raises
    and returns no report. *)
Theorem run_no_partial_results w source src sim e :
  (adapt ext source w).2 = Ok src →
  (_create_simulator ext src (adapt ext source w).1).2 = Ok sim →
  (snapshots ext sim).2 ≫= _create_daily_stats ext = Err e →
  is_ok (run ext source w).2 = false.
Proof.
  intros Ha Hsim Herr.
  destruct (run ext source w).2 as [report|e'] eqn:Hrun; [|done].
  apply run_ok_inv in Hrun as (src' & sim' & perfs & Ha' & Hsim' & Hp & Hr).
  rewrite Ha in Ha'. injection Ha' as <-.
  rewrite Hsim in Hsim'. injection Hsim' as <-.
  rewrite Hp in Herr. simpl in Herr. congruence.
Qed.

Lemma invoke_keeps_attr m name w :
  assigns m ≠ Some name →
  self ext (invoke ext m w).1 !! name = self ext w !! name.
Proof.
  intros Hne.
  destruct m as [cls tag args kwargs| | | | |]; simpl in *;
    try done; try (rewrite lookup_insert_ne; congruence).
  unfold add_transform. rewrite bind_unfold. unfold getattr.
  destruct (self ext w !! "registered_transforms") as [[]|]; simpl;
    try done.
  rewrite lookup_insert_ne; congruence.
Qed.

(** X16: [run] writes nothing on the instance itself: an attribute reads
    after the call as it did before, unless the log of the call shows the
    engine calling back the method that assigns it. *)
Theorem run_frame w source name :
  existsb (assigns_callback ext name) (events_of ext (run ext source) w)
  = false →
  self ext (run ext source w).1 !! name = self ext w !! name.
Proof.
  intros Hquiet.
  set (I := untouched_since ext (trace ext w) name (self ext w !! name)).
  assert (∀ e, keeps ext I (emit ext e)) as Hemit.
  { intros e w' (evs & Ht & H). exists (evs ++ [e]). simpl.
    rewrite Ht, app_assoc. split; [done|]. rewrite existsb_app.
    intros [H1 _]%orb_false_elim. auto. }
  assert (∀ m, keeps ext I (emit ext (Callback ext m);; invoke ext m))
    as Hcallback.
  { intros m w' (evs & Ht & H). rewrite bind_unfold. simpl.
    exists (evs ++ [Callback ext m]). rewrite invoke_trace. simpl.
    rewrite Ht, app_assoc. split; [done|]. rewrite existsb_app. simpl.
    rewrite orb_false_r.
    intros [H1 H2]%orb_false_elim. apply bool_decide_eq_false in H2.
    rewrite invoke_keeps_attr by done. simpl. auto. }
  destruct (keeps_run ext I Hemit Hcallback source w) as (evs & Ht & H).
  { exists []. by rewrite app_nil_r. }
  apply H. unfold events_of in Hquiet.
  by rewrite Ht, drop_app_length in Hquiet.
Qed.

End RunMore.

(** * Examples for the further properties *)

Lemma create_daily_stats_first_error_witness :
  _create_daily_stats replay
    ([replay_daily (VTimestamp 1)] ++ top_close_only :: [replay_summary])
  = Err (KeyError "period_close").
Proof.
  assert (closes_readable replay [replay_daily (VTimestamp 1)] = true)
    as Hpre by (vm_compute; reflexivity).
  assert (top_close_only !! "daily_perf"
          = Some (VDict (<["returns" := VInt 0]> ∅))) as Hp
    by (vm_compute; reflexivity).
  assert (close_of_daily replay (VDict (<["returns" := VInt 0]> ∅))
          = Err (KeyError "period_close")) as He
    by (vm_compute; reflexivity).
  exact (proj1 (create_daily_stats_first_error replay _ _ [replay_summary]
                  _ _ Hpre Hp He)).
Defined.

Lemma create_daily_stats_daily_only_witness :
  _create_daily_stats replay emitted
  = _create_daily_stats replay
      [replay_daily (VTimestamp 1); replay_daily (VTimestamp 2)].
Proof.
  assert (omap daily_of emitted
          = omap daily_of
              [replay_daily (VTimestamp 1); replay_daily (VTimestamp 2)])
    as H by (vm_compute; reflexivity).
  exact (proj1 (create_daily_stats_daily_only replay _ _ H)).
Defined.

Lemma create_daily_stats_app_witness :
  ∃ r, _create_daily_stats replay (emitted ++ emitted) = Ok r
       ∧ nrows r = 4%nat.
Proof.
  destruct (create_daily_stats_app replay emitted emitted) as (_ & _ & H).
  edestruct H as (r & Hr & _ & Hn).
  - vm_compute. reflexivity.
  - vm_compute. reflexivity.
  - exists r. split; [exact Hr|exact Hn].
Defined.

Lemma invoke_frame_witness :
  self replay (invoke replay (SetOrder (VRef "broker")) (fresh sids12)).1
    !! "portfolio"
  = self replay (fresh sids12) !! "portfolio".
Proof.
  apply (proj1 (invoke_frame replay (SetOrder (VRef "broker"))
                  (fresh sids12))).
  discriminate.
Defined.

Lemma add_transform_returns_iff_witness :
  (add_transform replay (VRef "mavg") "signal" [VInt 5] ∅
     (fresh sids12)).2 = Ok VNone.
Proof.
  apply (proj1 (add_transform_returns_iff replay (fresh sids12)
                  (VRef "mavg") "signal" [VInt 5] ∅)).
  exists ∅. vm_compute. reflexivity.
Defined.

Lemma add_transform_commute_witness :
  (add_transform replay (VRef "vwap") "fast" [] ∅
     (add_transform replay (VRef "mavg") "slow" [VInt 5] ∅
        (fresh sids12)).1).1
  = (add_transform replay (VRef "mavg") "slow" [VInt 5] ∅
       (add_transform replay (VRef "vwap") "fast" [] ∅
          (fresh sids12)).1).1.
Proof.
  apply (add_transform_commute replay (fresh sids12) ∅).
  - vm_compute. reflexivity.
  - discriminate.
Defined.

Lemma descriptor_round_trip_witness :
  ∃ (reg' : gmap string value) entry,
    self replay
      (add_transform replay (VRef "mavg") "slow" [VInt 5] ∅
         (fresh sids12)).1 !! "registered_transforms" = Some (VDict reg')
    ∧ reg' !! "slow" = Some entry.
Proof.
  destruct (descriptor_round_trip replay (fresh sids12) ∅
              (VRef "mavg") "slow" [VInt 5] ∅)
    as (reg' & entry & Hreg & Hentry & _).
  - vm_compute. reflexivity.
  - exists reg', entry. split; [exact Hreg|exact Hentry].
Defined.

Lemma transform_error_stops_assembly_witness :
  is_ok (_create_simulator strict walk misregistered).2 = false
  ∧ constructions strict
      (events_of strict (run strict (Native walk)) misregistered) = [].
Proof.
  destruct (transform_error_stops_assembly strict walk misregistered
              (<["signal" := descriptor (VInt 3) [] ∅]> ∅)
              "signal" (VInt 3) [] ∅ TypeError)
    as (Hfail & _ & _ & _ & Hnone).
  - vm_compute. reflexivity.
  - vm_compute. reflexivity.
  - reflexivity.
  - split; [exact Hfail|exact Hnone].
Defined.

Lemma run_environment_error_witness :
  run strict (Native backwards) (strict_fresh sids12)
  = ((emit strict
        (CallCreateTradingEnvironment strict (VTimestamp 2) (VTimestamp 1))
        (strict_fresh sids12)).1, Err ValueError).
Proof.
  apply (proj2 (run_environment_error strict backwards (prices [2; 1])
                  (VTimestamp 2) [VTimestamp 1] ValueError
                  (strict_fresh sids12) eq_refl eq_refl eq_refl)).
Defined.

Lemma run_source_without_data_witness :
  run replay (Native bare) (fresh sids12)
  = (fresh sids12, Err (AttributeError "data")).
Proof.
  apply (proj2 (run_source_without_data replay bare (fresh sids12) eq_refl)).
Defined.

Lemma run_adapter_error_witness :
  run strict (Tabular no_columns) (strict_fresh sids12)
  = ((emit strict (CallDataFrameSource strict no_columns sids12)
        (strict_fresh sids12)).1, Err (Raised "no columns")).
Proof.
  apply (run_adapter_error strict (strict_fresh sids12) no_columns sids12 [1]).
  - reflexivity.
  - vm_compute. reflexivity.
  - reflexivity.
Defined.

Lemma run_returns_reduction_witness :
  ∃ perfs report,
    (run replay (Tabular (prices [1; 2])) (fresh sids12)).2 = Ok report
    ∧ _create_daily_stats replay perfs = Ok report.
Proof.
  edestruct (run_returns_reduction replay (fresh sids12)
               (Tabular (prices [1; 2])))
    as (src & sim & perfs & _ & _ & _ & Hr).
  - vm_compute. reflexivity.
  - eexists perfs, _. split; [vm_compute; reflexivity|exact Hr].
Defined.

Lemma run_no_partial_results_witness :
  is_ok (run strict (Native walk) (strict_fresh (VList []))).2 = false.
Proof.
  apply (run_no_partial_results strict (strict_fresh (VList []))
           (Native walk) walk ([walk], false) (Raised "feed")).
  - reflexivity.
  - vm_compute. reflexivity.
  - reflexivity.
Defined.

Lemma run_frame_witness :
  self strict (run strict (Native walk) (strict_fresh sids12)).1 !! "done"
  = self strict (strict_fresh sids12) !! "done".
Proof.
  apply run_frame. vm_compute. reflexivity.
Defined.

Lemma run_drives_what_it_constructed_witness :
  ∃ j src transforms environment slippage,
    (j < 4)%nat
    ∧ events_of replay (run replay (Native walk)) (fresh sids12) !! j
      = Some (CallSimulatedTrading replay [src] transforms
                (self replay (fresh sids12)) environment slippage)
    ∧ (adapt replay (Native walk) (fresh sids12)).2 = Ok src
    ∧ (SimulatedTrading replay [src] transforms
         (self replay (fresh sids12)) environment slippage).2 = Ok [walk].
Proof.
  assert (events_of replay (run replay (Native walk)) (fresh sids12) !! 4%nat
          = Some (CallList replay [walk])) as H by reflexivity.
  exact (run_drives_what_it_constructed replay (fresh sids12) (Native walk)
           4 [walk] H).
Defined.

(** * One simulation for a run, one transform for a tag *)

Section RunAssembly.
Context (ext : Collaborators).
Implicit Types w : world ext.

Lemma subscript_0_head {A} (l : list A) x :
  subscript l 0 = Ok x → head l = Some x.
Proof. destruct l as [|a l]; [done|]. rewrite subscript_first. by intros [= ->]. Qed.

Lemma subscript_m1_last {A} (l : list A) x :
  subscript l (-1) = Ok x → last l = Some x.
Proof.
  destruct l as [|a l]; [done|]. rewrite subscript_last. intros [= <-].
  destruct l as [|b l]; [done|].
  change (last (a :: b :: l)) with (last (b :: l)).
  destruct (last (b :: l)) eqn:H; [done|]. by apply last_None in H.
Qed.

(** What the code reads off an entry is what the entry holds. *)
Lemma wraps_built_from item sf : wraps ext item sf → built_from ext item sf.
Proof.
  intros (cls & args & kwargs & instance & Hc & Ha & Hk & Hsf & ->).
  destruct item as [tag d]. simpl in *.
  destruct d as [| | | | | | | |entry|]; try discriminate.
  simpl in Hc, Ha, Hk.
  destruct (entry !! "class") as [cls'|] eqn:Hcls; [|discriminate].
  injection Hc as ->.
  destruct (entry !! "args") as [packed|] eqn:Hargs; [|discriminate].
  destruct (entry !! "kwargs") as [kw|] eqn:Hkw; [|discriminate].
  simpl in Ha, Hk.
  destruct kw as [| | | | | | | |kw|]; try discriminate.
  injection Hk as ->.
  exists entry, cls, packed, args, kwargs, instance. simpl.
  do 3 (split; [done|]). split; [|done].
  intros items [->| ->]; simpl in Ha; by injection Ha.
Qed.

(** [adapt], when it returns: a source came as it is; a frame had a
    DatetimeIndex and went through the adapter, with the [sids] of the
    instance. *)
Lemma adapt_inv source w w' src :
  adapt ext source w = (w', Ok src) →
  self ext w' = self ext w
  ∧ ((source = Native src ∧ trace ext w' = trace ext w)
     ∨ ∃ df sids,
         source = Tabular df
         ∧ is_DatetimeIndex (df_index df) = true
         ∧ self ext w !! "sids" = Some sids
         ∧ DataFrameSource ext df sids = Ok src
         ∧ trace ext w' = trace ext w ++ [CallDataFrameSource ext df sids]).
Proof.
  destruct source as [df|s]; unfold adapt.
  - intros H. apply bind_ok in H as ([] & w1 & Hcheck & H).
    destruct (is_DatetimeIndex (df_index df)) eqn:Hidx; [|discriminate].
    injection Hcheck as <-.
    apply bind_ok in H as (sids & w1 & [-> Hsids]%getattr_ok & H).
    apply call_ok in H as (Hself & Ht & Hsrc).
    split; [done|]. right. by exists df, sids.
  - intros [= <- <-]. split; [done|]. by left.
Qed.

Lemma adapter_calls_not_constructions (evs : list (event ext)) :
  Forall (λ e, is_adapter_call ext e = true) evs →
  Forall (λ e, is_construction ext e = false) evs.
Proof. intros H. eapply Forall_impl; [exact H|]. by intros []. Qed.

(** The log of a call of [run], whatever comes of it: either [run] raised
    and no simulation was constructed, or the constructor was reached,
    once, with everything it is handed in place. *)
Lemma run_assembly source w :
  (is_ok (run ext source w).2 = false
   ∧ constructions ext (events_of ext (run ext source) w) = [])
  ∨ ∃ src frame start end_ environment reg transforms slippage
      adapter before after,
      (adapt ext source w).2 = Ok src
      ∧ trace ext (adapt ext source w).1 = trace ext w ++ adapter
      ∧ data src = Some frame
      ∧ index_getitem (df_index frame) 0 = Ok start
      ∧ index_getitem (df_index frame) (-1) = Ok end_
      ∧ create_trading_environment ext start end_ = Ok environment
      ∧ self ext w !! "registered_transforms" = Some (VDict reg)
      ∧ Forall2 (wraps ext) (dict_items ext reg) transforms
      ∧ FixedSlippage ext = Ok slippage
      ∧ events_of ext (run ext source) w
        = adapter
          ++ CallCreateTradingEnvironment ext start end_ :: before
          ++ [CallFixedSlippage ext;
              CallSimulatedTrading ext [src] transforms (self ext w)
                environment slippage]
          ++ after
      ∧ Forall (λ e, is_adapter_call ext e = true) adapter
      ∧ Forall (λ e, is_transform_call ext e = true) before
      ∧ length before = length transforms
      ∧ Forall (λ e, is_construction ext e = false) after.
Proof.
  unfold events_of, run. rewrite bind_unfold.
  destruct (adapt_log ext source w) as (Hs0 & evs0 & Ht0 & Hevs0).
  destruct (adapt ext source w) as [w1 [src|e]] eqn:Ha; simpl in *.
  2:{ left. split; [done|]. rewrite Ht0, drop_app_length.
      by apply constructions_none, adapter_calls_not_constructions. }
  rewrite bind_unfold.
  destruct (create_simulator_cases ext src w1)
    as [([e' He'] & Hs & evs & Ht & Hevs)
       |(frame & start & end_ & env & reg & ts & slip & before & after
         & Hdata & Hstart & Hend & Henv & Hreg & Hwraps & Hslip & Ht
         & Hbefore & Hlen & Hafter & Hsim)].
  { left. destruct (_create_simulator ext src w1) as [w2 r].
    simpl in *. subst r. simpl. split; [done|].
    rewrite Ht, Ht0, <- app_assoc, drop_app_length.
    apply constructions_none, Forall_app. split.
    - by apply adapter_calls_not_constructions.
    - by apply assembly_calls_not_constructions. }
  right. rewrite Hs0 in *.
  set (c := CallSimulatedTrading ext [src] ts (self ext w) env slip) in *.
  set (pre := evs0 ++ CallCreateTradingEnvironment ext start end_
                :: before ++ [CallFixedSlippage ext]).
  apply callbacks_not_constructions in Hafter.
  assert (trace ext (_create_simulator ext src w1).1
          = trace ext w ++ pre ++ c :: after) as Htw2.
  { rewrite Ht, Ht0. subst pre. rewrite <- !app_assoc. simpl.
    rewrite <- !app_assoc. reflexivity. }
  clear Ht.
  assert (∀ post (w3 : world ext),
    Forall (λ e, is_construction ext e = false) post →
    trace ext w3 = trace ext (_create_simulator ext src w1).1 ++ post →
    ∃ after',
      drop (length (trace ext w)) (trace ext w3)
      = evs0 ++ CallCreateTradingEnvironment ext start end_ :: before
        ++ [CallFixedSlippage ext; c] ++ after'
      ∧ Forall (λ e, is_construction ext e = false) after') as Hshape.
  { intros post w3 Hpost ->. exists (after ++ post).
    split; [|by apply Forall_app].
    rewrite Htw2. subst pre. rewrite <- !app_assoc, drop_app_length.
    simpl. rewrite <- !app_assoc. reflexivity. }
  assert (∃ after',
    drop (length (trace ext w))
      (trace ext
         ((simulated_trading ← _create_simulator ext src;
           perfs ← engine ext (CallList ext simulated_trading)
                     (snapshots ext simulated_trading);
           daily_stats ← lift ext (_create_daily_stats ext perfs);
           mret daily_stats) w1).1)
    = evs0 ++ CallCreateTradingEnvironment ext start end_ :: before
      ++ [CallFixedSlippage ext; c] ++ after'
    ∧ Forall (λ e, is_construction ext e = false) after')
    as (after' & Hevs & Hafter').
  { rewrite bind_unfold.
    destruct (_create_simulator ext src w1) as [w2 [sim|e]];
      cbn [fst snd] in *.
    2:{ apply (Hshape []); [done|by rewrite app_nil_r]. }
    rewrite bind_unfold.
    destruct (engine_trace ext (CallList ext sim) (snapshots ext sim) w2)
      as (evs2 & Ht2 & Hevs2).
    apply callbacks_not_constructions in Hevs2.
    destruct (engine ext (CallList ext sim) (snapshots ext sim) w2)
      as [w3 [perfs|e]]; cbn [fst snd] in *.
    - rewrite lift_bind.
      destruct (_create_daily_stats ext perfs);
        apply (Hshape (CallList ext sim :: evs2)); by try constructor.
    - apply (Hshape (CallList ext sim :: evs2)); by try constructor. }
  exists src, frame, start, end_, env, reg, ts, slip, evs0, before, after'.
  by do 13 (split; [done|]).
Qed.

(** The items of a dictionary hold one item for a key. *)
Lemma no_item_for_key (items : list (string * value)) tag :
  tag ∉ items.*1 →
  filter (λ item : string * value, item.1 = tag) items = [].
Proof.
  induction items as [|[k v] items IH]; [done|].
  simpl. intros Hnot. apply not_elem_of_cons in Hnot as [Hne Hnot].
  rewrite filter_cons. simpl. rewrite decide_False by done. by apply IH.
Qed.

Lemma one_item_for_key (items : list (string * value)) tag d :
  NoDup items.*1 →
  (tag, d) ∈ items →
  filter (λ item : string * value, item.1 = tag) items = [(tag, d)].
Proof.
  induction items as [|item items IH]; intros Hnd Hin.
  - by apply elem_of_nil in Hin.
  - simpl in Hnd. apply NoDup_cons in Hnd as [Hfresh Hnd].
    rewrite filter_cons.
    apply elem_of_cons in Hin as [<-|Hin]; simpl.
    + rewrite decide_True by done. by rewrite no_item_for_key.
    + assert (item.1 ≠ tag) as Hne.
      { intros <-. apply Hfresh. apply list_elem_of_fmap.
        by exists (item.1, d). }
      rewrite decide_False by done. by apply IH.
Qed.

(** C5, as the code has it.  No call of [run] constructs more than one
    simulation, and a call that returns a report has constructed exactly
    one.  Whenever a call constructs one, whether it goes on to return or
    to raise, the constructor is handed: the one source [run] works on, as
    a one-element list, which is the source passed in or what the adapter
    made of a frame with a DatetimeIndex and the [sids] of the instance;
    one StatefulTransform for each entry of the registry, in the order the
    dictionary yields its entries, each constructed from the class, the
    positional and the keyword arguments its entry holds and named after
    the entry's tag; the instance as it was when [run] was called; the
    environment made from the first and the last label of the source's
    index; and the slippage model constructed just before.  The log the
    call started from plays no part. *)
Theorem run_constructs_one_simulation w source :
  (length (constructions ext (events_of ext (run ext source) w)) ≤ 1)%nat
  ∧ (∀ report, (run ext source w).2 = Ok report →
       length (constructions ext (events_of ext (run ext source) w))
       = 1%nat)
  ∧ (∀ c, c ∈ constructions ext (events_of ext (run ext source) w) →
     ∃ src frame start end_ environment reg items transforms slippage
       adapter before after,
       (source = Native src ∧ adapter = []
        ∨ ∃ df sids,
            source = Tabular df
            ∧ is_DatetimeIndex (df_index df) = true
            ∧ self ext w !! "sids" = Some sids
            ∧ DataFrameSource ext df sids = Ok src
            ∧ adapter = [CallDataFrameSource ext df sids])
       ∧ data src = Some frame
       ∧ head (index_values (df_index frame)) = Some start
       ∧ last (index_values (df_index frame)) = Some end_
       ∧ create_trading_environment ext start end_ = Ok environment
       ∧ self ext w !! "registered_transforms" = Some (VDict reg)
       ∧ iteritems ext (VDict reg) = Ok items
       ∧ items ≡ₚ map_to_list reg
       ∧ Forall2 (built_from ext) items transforms
       ∧ (∀ tag entry, reg !! tag = Some entry →
            ∃ sf, built_from ext (tag, entry) sf
                  ∧ filter (λ sf, has_namestring tag sf = true) transforms
                    = [sf])
       ∧ FixedSlippage ext = Ok slippage
       ∧ c = CallSimulatedTrading ext [src] transforms (self ext w)
               environment slippage
       ∧ constructions ext (events_of ext (run ext source) w) = [c]
       ∧ events_of ext (run ext source) w
         = adapter
           ++ CallCreateTradingEnvironment ext start end_ :: before
           ++ [CallFixedSlippage ext; c] ++ after
       ∧ Forall (λ e, is_transform_call ext e = true) before
       ∧ length before = length transforms
       ∧ Forall (λ e, is_construction ext e = false) after).
Proof.
  destruct (run_assembly source w)
    as [[Hfail Hnone]
       |(src & frame & start & end_ & env & reg & ts & slip & adapter
         & before & after & Ha & Hta & Hdata & Hstart & Hend & Henv & Hreg
         & Hwraps & Hslip & Hevs & Hadapter & Hbefore & Hlen & Hafter)].
  { rewrite Hnone. split; [simpl; lia|]. split.
    - intros report Hok. by rewrite Hok in Hfail.
    - intros c Hc. by apply elem_of_nil in Hc. }
  set (c := CallSimulatedTrading ext [src] ts (self ext w) env slip) in *.
  assert (constructions ext (events_of ext (run ext source) w) = [c])
    as Hone.
  { rewrite Hevs.
    replace (adapter
             ++ CallCreateTradingEnvironment ext start end_ :: before
             ++ [CallFixedSlippage ext; c] ++ after)
      with ((adapter
             ++ CallCreateTradingEnvironment ext start end_ :: before
             ++ [CallFixedSlippage ext]) ++ c :: after)
      by (rewrite <- !app_assoc; simpl; by rewrite <- !app_assoc).
    apply constructions_one; [|done|done].
    apply Forall_app. split; [by apply adapter_calls_not_constructions|].
    constructor; [done|]. apply Forall_app. split; [|by repeat constructor].
    by apply transform_calls_not_constructions. }
  rewrite Hone. split; [done|]. split; [done|].
  intros c' Hc'. apply list_elem_of_singleton in Hc' as ->.
  destruct (adapt ext source w) as [w1 r] eqn:Hadapt. simpl in Ha, Hta.
  subst r. apply adapt_inv in Hadapt as [_ Hsource].
  exists src, frame, start, end_, env, reg, (dict_items ext reg), ts, slip,
    adapter, before, after.
  split.
  { destruct Hsource as [[-> Ht]|(df & sids & -> & Hidx & Hsids & Hsrc & Ht)].
    - left. split; [done|]. rewrite Ht in Hta.
      apply (f_equal length) in Hta. rewrite length_app in Hta.
      apply nil_length_inv. lia.
    - right. exists df, sids. do 4 (split; [done|]).
      rewrite Ht in Hta. by apply app_inv_head in Hta. }
  split; [done|].
  split; [by apply subscript_0_head|]. split; [by apply subscript_m1_last|].
  do 3 (split; [done|]). split; [apply dict_items_perm|].
  split.
  { eapply Forall2_impl; [exact Hwraps|]. apply wraps_built_from. }
  split.
  { intros tag entry Hentry.
    destruct (one_transform_named ext tag entry (dict_items ext reg) ts)
      as (sf & Hsf & Hfilter).
    - apply NoDup_fst_dict_items.
    - by apply elem_of_dict_items.
    - done.
    - exists sf. split; [by apply wraps_built_from|done]. }
  by do 6 (split; [done|]).
Qed.

(** The simulation constructor appears in the log of an assembly only
    when everything it is handed was made. *)
Lemma create_simulator_constructs source w sources transforms algo
    environment slippage :
  CallSimulatedTrading ext sources transforms algo environment slippage
    ∈ events_of ext (_create_simulator ext source) w →
  sources = [source] ∧ algo = self ext w
  ∧ ∃ reg, self ext w !! "registered_transforms" = Some (VDict reg)
           ∧ Forall2 (wraps ext) (dict_items ext reg) transforms.
Proof.
  unfold events_of. intros Hin.
  destruct (create_simulator_cases ext source w)
    as [(_ & _ & evs & Ht & Hevs)
       |(frame & start & end_ & env & reg & ts & slip & before & after
         & _ & _ & _ & _ & Hreg & Hwraps & _ & Ht & Hbefore & _ & Hafter
         & _)].
  - rewrite Ht, drop_app_length in Hin.
    rewrite Forall_forall in Hevs. by specialize (Hevs _ Hin).
  - rewrite Ht, drop_app_length in Hin.
    rewrite Forall_forall in Hbefore, Hafter.
    apply elem_of_cons in Hin as [Hin|Hin]; [discriminate|].
    apply elem_of_app in Hin as [Hin|Hin];
      [by specialize (Hbefore _ Hin)|].
    apply elem_of_app in Hin as [Hin|Hin];
      [|by specialize (Hafter _ Hin)].
    apply elem_of_cons in Hin as [Hin|Hin]; [discriminate|].
    apply list_elem_of_singleton in Hin. injection Hin as -> -> -> _ _.
    do 2 (split; [done|]). by exists reg.
Qed.

(** C4: on an instance whose registry is a dictionary, after a transform
    A and then a transform B were registered under one tag, the registry
    holds under the tag a record of exactly three fields: the class of B,
    the tuple of B's positional arguments and the dictionary of B's
    keyword arguments; the other entries are as they were.  The tags of a
    registry never repeat, so an assembly that follows meets the tag once,
    with this record, and what it makes of it is one call of
    StatefulTransform with B's class and arguments, named after the tag.
    Whenever such an assembly reaches the simulation constructor, the
    transforms it hands over hold exactly one named by the tag, the one
    built from B; an assembly that returns has reached it. *)
Theorem add_transform_overwrites w (reg : gmap string value) tag
    clsA argsA kwargsA clsB argsB kwargsB :
  self ext w !! "registered_transforms" = Some (VDict reg) →
  let w2 := (add_transform ext clsB tag argsB kwargsB
               (add_transform ext clsA tag argsA kwargsA w).1).1 in
  ∃ reg2 entry : gmap string value,
    self ext w2 !! "registered_transforms" = Some (VDict reg2)
    ∧ reg2 !! tag = Some (VDict entry)
    ∧ entry !! "class" = Some clsB
    ∧ entry !! "args" = Some (VTuple argsB)
    ∧ entry !! "kwargs" = Some (VDict kwargsB)
    ∧ (∀ key, is_Some (entry !! key) →
              key = "class" ∨ key = "args" ∨ key = "kwargs")
    ∧ (∀ other, other ≠ tag → reg2 !! other = reg !! other)
    ∧ (∀ w' v items, self ext w' !! "registered_transforms" = Some v →
         iteritems ext v = Ok items → NoDup items.*1)
    ∧ (∀ items, iteritems ext (VDict reg2) = Ok items →
         filter (λ item : string * value, item.1 = tag) items
         = [(tag, VDict entry)])
    ∧ (∀ w', materialize ext (tag, VDict entry) w'
             = ({| self := self ext w';
                   trace := trace ext w'
                            ++ [CallStatefulTransform ext clsB argsB
                                  kwargsB] |},
                match StatefulTransform ext clsB argsB kwargsB with
                | Ok instance => Ok (<["namestring" := VStr tag]> instance)
                | Err e => Err e
                end))
    ∧ (∀ source sources transforms algo environment slippage,
         CallSimulatedTrading ext sources transforms algo environment
           slippage
         ∈ events_of ext (_create_simulator ext source) w2 →
         sources = [source] ∧ algo = self ext w2
         ∧ ∃ instance,
             StatefulTransform ext clsB argsB kwargsB = Ok instance
             ∧ filter (λ sf, has_namestring tag sf = true) transforms
               = [<["namestring" := VStr tag]> instance])
    ∧ (∀ source sim,
         (_create_simulator ext source w2).2 = Ok sim →
         ∃ transforms environment slippage instance,
           CallSimulatedTrading ext [source] transforms (self ext w2)
             environment slippage
           ∈ events_of ext (_create_simulator ext source) w2
           ∧ StatefulTransform ext clsB argsB kwargsB = Ok instance
           ∧ filter (λ sf, has_namestring tag sf = true) transforms
             = [<["namestring" := VStr tag]> instance]).
Proof.
  intros Hreg w2.
  set (entry := <["class" := clsB]>
                (<["args" := VTuple argsB]>
                (<["kwargs" := VDict kwargsB]> (∅ : gmap string value)))).
  set (reg2 := <[tag := VDict entry]> reg).
  assert (self ext w2 !! "registered_transforms" = Some (VDict reg2)) as Hreg2.
  { subst w2 reg2. rewrite (add_transform_registry ext w reg) by done. simpl.
    erewrite add_transform_registry by (simpl; apply lookup_insert_eq).
    simpl. by rewrite lookup_insert_eq, insert_insert_eq. }
  assert (∀ source sources transforms algo environment slippage,
    CallSimulatedTrading ext sources transforms algo environment slippage
      ∈ events_of ext (_create_simulator ext source) w2 →
    sources = [source] ∧ algo = self ext w2
    ∧ ∃ instance,
        StatefulTransform ext clsB argsB kwargsB = Ok instance
        ∧ filter (λ sf, has_namestring tag sf = true) transforms
          = [<["namestring" := VStr tag]> instance]) as Hreached.
  { intros source sources transforms algo environment slippage Hin.
    apply create_simulator_constructs
      in Hin as (-> & -> & reg' & Hreg' & Hwraps).
    do 2 (split; [done|]).
    rewrite Hreg2 in Hreg'. injection Hreg' as <-.
    destruct (one_transform_named ext tag (VDict entry)
                (dict_items ext reg2) transforms) as (sf & Hsf & Hfilter).
    { apply NoDup_fst_dict_items. }
    { apply elem_of_dict_items. apply lookup_insert_eq. }
    { done. }
    apply (wraps_descriptor ext tag clsB argsB kwargsB)
      in Hsf as (instance & Hinst & ->).
    by exists instance. }
  exists reg2, entry. split; [done|]. split; [apply lookup_insert_eq|].
  do 3 (split; [done|]). split.
  { intros key [x Hx]. subst entry.
    apply lookup_insert_Some in Hx as [[<- _]|[_ Hx]]; [by left|].
    apply lookup_insert_Some in Hx as [[<- _]|[_ Hx]]; [by right; left|].
    apply lookup_insert_Some in Hx as [[<- _]|[_ Hx]]; [by right; right|].
    by rewrite lookup_empty in Hx. }
  split; [intros other Hne; by apply lookup_insert_ne|]. split.
  { intros w' v items _ Hitems. destruct v; try discriminate.
    injection Hitems as <-. apply NoDup_fst_dict_items. }
  split.
  { intros items [= <-]. apply one_item_for_key.
    - apply NoDup_fst_dict_items.
    - apply elem_of_dict_items. apply lookup_insert_eq. }
  split.
  { intros w'. unfold materialize.
    assert (getitem (VDict entry) "class" = Ok clsB) as Hc by reflexivity.
    assert (getitem (VDict entry) "args" ≫= star ext = Ok argsB)
      as Ha by reflexivity.
    assert (getitem (VDict entry) "kwargs" ≫= starstar = Ok kwargsB)
      as Hk by reflexivity.
    rewrite Hc, Ha, Hk. unfold call, lift, emit. rewrite !bind_unfold.
    by destruct (StatefulTransform ext clsB argsB kwargsB). }
  split; [exact Hreached|].
  intros source sim Hsim.
  destruct (_create_simulator ext source w2) as [w3 r] eqn:Hrun.
  simpl in Hsim. subst r.
  pose proof Hrun as Hrun'.
  apply create_simulator_ok in Hrun'
    as (frame & start & end_ & env & reg' & transforms & slip & before
        & after & _ & _ & _ & _ & _ & _ & _ & _ & Ht & _ & _).
  assert (CallSimulatedTrading ext [source] transforms (self ext w2) env slip
          ∈ events_of ext (_create_simulator ext source) w2) as Hin.
  { unfold events_of. rewrite Hrun. simpl. rewrite Ht, drop_app_length.
    apply elem_of_app. right. apply elem_of_app. left.
    apply elem_of_cons. right. by apply elem_of_cons; left. }
  destruct (Hreached _ _ _ _ _ _ Hin) as (_ & _ & instance & Hinst & Hf).
  by exists transforms, env, slip, instance.
Qed.

End RunAssembly.

(** * Examples for assembly *)

(** C5 fails as stated: a call of [run] on a frame indexed by integers
    raises at the check, and a call on a frame without a row raises when
    assembly asks for the first label; neither constructs a simulation. *)
Lemma run_may_construct_nothing :
  (run replay (Tabular labelled) (fresh sids12)).2 = Err AssertionError
  ∧ constructions replay
      (events_of replay (run replay (Tabular labelled)) (fresh sids12)) = []
  ∧ (run replay (Tabular (prices [])) (fresh sids12)).2 = Err IndexError
  ∧ constructions replay
      (events_of replay (run replay (Tabular (prices []))) (fresh sids12))
    = [].
Proof. repeat split. Qed.

Lemma run_constructs_one_simulation_witness :
  let source := Tabular (prices [1; 2; 3]) in
  let src := {| source_name := "DataFrameSource";
                data := Some (prices [1; 2; 3]) |} in
  let entry := descriptor (VRef "mavg") [VInt 5] (<["window" := VInt 3]> ∅) in
  let sf := <["namestring" := VStr "signal"]>
            (<["state" := VTuple [VRef "mavg"; VInt 5]]>
             (<["window" := VInt 3]> ∅)) in
  is_ok (run replay source tracking).2 = true
  ∧ length (constructions replay
              (events_of replay (run replay source) tracking)) = 1%nat
  ∧ constructions replay (events_of replay (run replay source) tracking)
    = [CallSimulatedTrading replay [src] [sf] (self replay tracking)
         (VTimestamp 1, VTimestamp 3) ()]
  ∧ self replay tracking !! "registered_transforms"
    = Some (VDict (<["signal" := entry]> ∅))
  ∧ built_from replay ("signal", entry) sf.
Proof.
  intros source src entry sf.
  destruct (run_constructs_one_simulation replay tracking source)
    as (_ & Hone & Hargs).
  assert (is_ok (run replay source tracking).2 = true) as Hok
    by (vm_compute; reflexivity).
  assert (constructions replay
            (events_of replay (run replay source) tracking)
          = [CallSimulatedTrading replay [src] [sf] (self replay tracking)
               (VTimestamp 1, VTimestamp 3) ()]) as Hlog by reflexivity.
  assert (self replay tracking !! "registered_transforms"
          = Some (VDict (<["signal" := entry]> ∅))) as Hreg
    by (vm_compute; reflexivity).
  split; [exact Hok|]. split.
  { eapply Hone. vm_compute. reflexivity. }
  split; [exact Hlog|]. split; [exact Hreg|].
  edestruct Hargs
    as (src' & frame & start & end_ & env & reg & items & ts & slip
        & adapter & before & after & _ & _ & _ & _ & _ & Hreg' & _ & _ & _
        & Htag & _ & Hc & _).
  { rewrite Hlog. apply list_elem_of_singleton. reflexivity. }
  rewrite Hreg in Hreg'. injection Hreg' as <-.
  injection Hc as _ <- _ _.
  destruct (Htag "signal" entry) as (sf' & Hbuilt & Hfilter);
    [reflexivity|].
  assert (filter (λ sf0, has_namestring "signal" sf0 = true) [sf] = [sf])
    as Hf by (vm_compute; reflexivity).
  rewrite Hf in Hfilter. injection Hfilter as <-. exact Hbuilt.
Defined.

Lemma add_transform_overwrites_witness :
  let w2 := (add_transform replay (VRef "vwap") "signal" [VInt 9]
               (<["window" := VInt 3]> ∅)
               (add_transform replay (VRef "mavg") "signal" [VInt 5] ∅
                  (fresh sids12)).1).1 in
  let instance := <["state" := VTuple [VRef "vwap"; VInt 9]]>
                  (<["window" := VInt 3]> ∅) in
  ∃ reg2 entry : gmap string value,
    self replay w2 !! "registered_transforms" = Some (VDict reg2)
    ∧ reg2 !! "signal" = Some (VDict entry)
    ∧ entry !! "class" = Some (VRef "vwap")
    ∧ entry !! "args" = Some (VTuple [VInt 9])
    ∧ entry !! "kwargs" = Some (VDict (<["window" := VInt 3]> ∅))
    ∧ ∃ transforms environment slippage,
        CallSimulatedTrading replay [walk] transforms (self replay w2)
          environment slippage
        ∈ events_of replay (_create_simulator replay walk) w2
        ∧ filter (λ sf, has_namestring "signal" sf = true) transforms
          = [<["namestring" := VStr "signal"]> instance].
Proof.
  intros w2 instance.
  assert (self replay (fresh sids12) !! "registered_transforms"
          = Some (VDict ∅)) as Hfresh by (vm_compute; reflexivity).
  destruct (add_transform_overwrites replay (fresh sids12) ∅ "signal"
              (VRef "mavg") [VInt 5] ∅
              (VRef "vwap") [VInt 9] (<["window" := VInt 3]> ∅) Hfresh)
    as (reg2 & entry & Hreg & Htag & Hcls & Hargs & Hkwargs & _ & _ & _ & _
        & _ & _ & Hassembly).
  exists reg2, entry. do 5 (split; [assumption|]).
  destruct (Hassembly walk [walk])
    as (ts & env & slip & inst & Hin & Hinst & Hf).
  { vm_compute. reflexivity. }
  assert (StatefulTransform replay (VRef "vwap") [VInt 9]
            (<["window" := VInt 3]> ∅) = Ok instance) as Hi by reflexivity.
  rewrite Hi in Hinst. injection Hinst as <-.
  exists ts, env, slip. split; [exact Hin|exact Hf].
Defined.
